(** * The chat front-end of setup-local-llm-hub

    A shallow embedding of [ollama-server/frontend/src/App.js]: the pure
    function [getDisplayName], and the React component [App] as a state
    record whose fields are the component's [useState] cells, with one
    function per event handler and one per effect. *)

From Stdlib Require Import String Ascii NArith List Bool Arith Lia.
From stdpp Require Import base list strings.
Import ListNotations.

Local Open Scope string_scope.
Local Open Scope list_scope.
Set Warnings "-register-all".

(** ** JavaScript strings

    A JavaScript string is a sequence of code units.  [string] holds the
    code units 0..255 (ASCII and the Latin-1 supplement); the functions
    below are the methods of [String.prototype] restricted to them. *)
Module JsString.

Definition code (c : ascii) : N := N_of_ascii c.

Definition between (lo hi : N) (c : ascii) : bool :=
  (lo <=? code c)%N && (code c <=? hi)%N.

Definition isUpper (c : ascii) : bool := between 65 90 c.
Definition isLower (c : ascii) : bool := between 97 122 c.
Definition isDigit (c : ascii) : bool := between 48 57 c.

(** The character class [[a-zA-Z0-9]]. *)
Definition isAlnum (c : ascii) : bool := isLower c || isUpper c || isDigit c.

(** The complement class [[^a-zA-Z0-9]] of the regular expression that
    [getDisplayName] splits on. *)
Definition isSeparator (c : ascii) : bool := negb (isAlnum c).

(** Lower-casing of one code unit below 256: A-Z, and the Latin-1
    capitals 192..222 except the multiplication sign 215. *)
Definition lowerChar (c : ascii) : ascii :=
  if isUpper c || (between 192 222 c && negb (code c =? 215)%N)
  then ascii_of_N (code c + 32) else c.

(** Upper-casing of one code unit.  [getDisplayName] applies it to the
    first character of a fragment of [[a-zA-Z0-9]] only, where
    [toUpperCase] changes a-z and nothing else. *)
Definition upperChar (c : ascii) : ascii :=
  if isLower c then ascii_of_N (code c - 32) else c.

Fixpoint toLowerCase (s : string) : string :=
  match s with
  | EmptyString => EmptyString
  | String c r => String (lowerChar c) (toLowerCase r)
  end.

Fixpoint toUpperCase (s : string) : string :=
  match s with
  | EmptyString => EmptyString
  | String c r => String (upperChar c) (toUpperCase r)
  end.

(** [s.startsWith(k)]. *)
Fixpoint startsWith (s k : string) : bool :=
  match k, s with
  | EmptyString, _ => true
  | String _ _, EmptyString => false
  | String a k', String b s' => Ascii.eqb a b && startsWith s' k'
  end.

(** [s.includes(k)]: [k] occurs in [s] at some position. *)
Fixpoint includes (s k : string) : bool :=
  startsWith s k ||
  match s with
  | EmptyString => false
  | String _ r => includes r k
  end.

(** [s.split(sep)] for a separator that matches exactly one code unit:
    the one-character string [":"] or the class [[^a-zA-Z0-9]].  The
    result is never empty; [""] splits to [[""]]. *)
Fixpoint split (sep : ascii -> bool) (s : string) : list string :=
  match s with
  | EmptyString => [EmptyString]
  | String c r =>
      if sep c then EmptyString :: split sep r
      else match split sep r with
           | w :: ws => String c w :: ws
           | [] => [String c EmptyString]
           end
  end.

(** [s.charAt(0)]: the first character as a string, [""] for [""]. *)
Definition charAt0 (s : string) : string :=
  match s with
  | EmptyString => EmptyString
  | String c _ => String c EmptyString
  end.

(** [s.slice(1)]. *)
Definition slice1 (s : string) : string :=
  match s with
  | EmptyString => EmptyString
  | String _ r => r
  end.

(** [l.join(sep)]. *)
Definition join (sep : string) (l : list string) : string :=
  String.concat sep l.

(** White space and line terminators below 256, the characters that
    [trim] strips: TAB, LF, VT, FF, CR, space and the no-break space. *)
Definition isWhiteSpace (c : ascii) : bool :=
  between 9 13 c || (code c =? 32)%N || (code c =? 160)%N.

Fixpoint trimStart (s : string) : string :=
  match s with
  | EmptyString => EmptyString
  | String c r => if isWhiteSpace c then trimStart r else s
  end.

(** Drops trailing white space: a character is kept when it is not
    white space or something is kept after it. *)
Fixpoint trimEnd (s : string) : string :=
  match s with
  | EmptyString => EmptyString
  | String c r =>
      match trimEnd r with
      | EmptyString => if isWhiteSpace c then EmptyString else String c EmptyString
      | r' => String c r'
      end
  end.

(** [s.trim()]. *)
Definition trim (s : string) : string := trimEnd (trimStart s).

(** Every character of [s] satisfies [p]. *)
Fixpoint allChars (p : ascii -> bool) (s : string) : bool :=
  match s with
  | EmptyString => true
  | String c r => p c && allChars p r
  end.

(** JavaScript truthiness of a string: non-empty. *)
Definition truthy (s : string) : bool :=
  match s with EmptyString => false | String _ _ => true end.

End JsString.
Import JsString.

(** ** getDisplayName (App.js, lines 8-33) *)

(** The object literal [modelMap]; [for ... in] visits its keys in
    insertion order. *)
Definition modelMap : list (string * string) :=
  [ ("mistral:latest", "Mistral");
    ("deepseek-r1:latest", "DeepSeek R1");
    ("llama3.2:latest", "Llama 3.2");
    ("gemma2:2b", "Gemma 2") ].

(** The loop over the known models: the value of the first key that the
    lower-cased name includes. *)
Fixpoint lookupKnown (modelName : string) (entries : list (string * string))
  : option string :=
  match entries with
  | [] => None
  | (key, value) :: rest =>
      if includes (toLowerCase modelName) (toLowerCase key)
      then Some value
      else lookupKnown modelName rest
  end.

(** [word.charAt(0).toUpperCase() + word.slice(1).toLowerCase()]. *)
Definition capitalize (word : string) : string :=
  toUpperCase (charAt0 word) +:+ toLowerCase (slice1 word).

(** A title-cased fragment: letters and digits only, no lower-case
    letter in front and no upper-case letter after the first character. *)
Definition isTitleCased (word : string) : bool :=
  allChars isAlnum word &&
  match word with
  | EmptyString => true
  | String c r => negb (isLower c) && allChars (fun x => negb (isUpper x)) r
  end.

Definition getDisplayName (modelName : string) : string :=
  match lookupKnown modelName modelMap with
  | Some value => value
  | None =>
      let parts := split (Ascii.eqb ":") modelName in
      match parts with
      | part0 :: _ => join " " (map capitalize (split isSeparator part0))
      | [] => modelName
      end
  end.

(** ** JavaScript values and exceptions *)

(** The values that [JSON.parse] yields, and [undefined], which reading a
    missing property yields.  A number is carried by the text that
    [ToString] gives for it: the component only ever concatenates one. *)
Inductive JsValue : Type :=
| JUndefined
| JNull
| JBool (b : bool)
| JNumber (text : string)
| JString (s : string)
| JArray (elements : list JsValue)
| JObject (fields : list (string * JsValue)).

Inductive JsError : Type :=
| SyntaxError
| TypeError
| InvalidStateError.

(** The outcome of evaluating an expression: a value or a thrown error. *)
Inductive Completion (A : Type) : Type :=
| Normal (a : A)
| Throw (e : JsError).
Arguments Normal {A} a.
Arguments Throw {A} e.

#[global] Instance Completion_bind : MBind Completion :=
  fun A B k c =>
    match c with
    | Normal a => k a
    | Throw e => Throw e
    end.

Module Js.

(** The last binding of [name]: a later duplicate key overwrites an
    earlier one when [JSON.parse] builds the object. *)
Fixpoint lookupField (name : string) (fields : list (string * JsValue))
  : option JsValue :=
  match fields with
  | [] => None
  | (k, v) :: rest =>
      match lookupField name rest with
      | Some v' => Some v'
      | None => if String.eqb k name then Some v else None
      end
  end.

(** [data.name] for the names the component reads ([type], [content],
    [histories]), which no prototype defines: a [TypeError] on [null]
    and [undefined], the own property of an object, [undefined]
    elsewhere. *)
Definition getProp (data : JsValue) (name : string) : Completion JsValue :=
  match data with
  | JUndefined | JNull => Throw TypeError
  | JObject fields =>
      match lookupField name fields with
      | Some v => Normal v
      | None => Normal JUndefined
      end
  | _ => Normal JUndefined
  end.

(** [v === s] for a string literal [s]. *)
Definition strictEq (v : JsValue) (s : string) : bool :=
  match v with
  | JString t => String.eqb t s
  | _ => false
  end.

(** [ToString], as string concatenation and template literals apply
    it.  An array joins its elements with commas, [null] and
    [undefined] elements giving the empty string.  An object is taken
    to have no [toString] key of its own; on one that has, the
    conversion throws. *)
Fixpoint toString (v : JsValue) : string :=
  match v with
  | JUndefined => "undefined"
  | JNull => "null"
  | JBool true => "true"
  | JBool false => "false"
  | JNumber text => text
  | JString s => s
  | JArray elements =>
      join ","
        (map (fun x => match x with
                       | JUndefined | JNull => EmptyString
                       | _ => toString x
                       end) elements)
  | JObject _ => "[object Object]"
  end.

End Js.
Import Js.

(** ** A decoder for JSON texts

    [JSON.parse] belongs to the platform; the handlers below take it as a
    parameter.  [Json.parse] is a decoder for the part of JSON that the
    examples use: objects, arrays, strings with the one-character
    escapes, integers of up to fifteen digits, [true], [false] and
    [null].  Elsewhere (fractions, exponents, unicode escapes) it throws
    although [JSON.parse] may not. *)
Module Json.

Definition isJsonSpace (c : ascii) : bool :=
  (code c =? 32)%N || (code c =? 9)%N || (code c =? 10)%N || (code c =? 13)%N.

Fixpoint skipWs (s : string) : string :=
  match s with
  | String c r => if isJsonSpace c then skipWs r else s
  | EmptyString => EmptyString
  end.

Fixpoint stripPrefix (k s : string) : option string :=
  match k, s with
  | EmptyString, _ => Some s
  | String a k', String b s' =>
      if Ascii.eqb a b then stripPrefix k' s' else None
  | String _ _, EmptyString => None
  end.

Definition isQuote (c : ascii) : bool := (code c =? 34)%N.

Definition unescape (c : ascii) : option ascii :=
  if isQuote c then Some c
  else if Ascii.eqb c "\" then Some c
  else if Ascii.eqb c "/" then Some c
  else if Ascii.eqb c "b" then Some (ascii_of_N 8)
  else if Ascii.eqb c "f" then Some (ascii_of_N 12)
  else if Ascii.eqb c "n" then Some (ascii_of_N 10)
  else if Ascii.eqb c "r" then Some (ascii_of_N 13)
  else if Ascii.eqb c "t" then Some (ascii_of_N 9)
  else None.

(** The characters of a string literal after its opening quote. *)
Fixpoint stringBody (s : string) : option (string * string) :=
  match s with
  | EmptyString => None
  | String c r =>
      if isQuote c then Some (EmptyString, r)
      else if (code c <? 32)%N then None
      else if Ascii.eqb c "\" then
        match r with
        | String e r' =>
            match unescape e, stringBody r' with
            | Some c', Some (body, rest) => Some (String c' body, rest)
            | _, _ => None
            end
        | EmptyString => None
        end
      else
        match stringBody r with
        | Some (body, rest) => Some (String c body, rest)
        | None => None
        end
  end.

(** A string literal: its opening quote, then its body. *)
Definition stringLiteral (s : string) : option (string * string) :=
  match s with
  | String c r => if isQuote c then stringBody r else None
  | EmptyString => None
  end.

Fixpoint digits (s : string) : string * string :=
  match s with
  | String c r =>
      if isDigit c then let '(d, rest) := digits r in (String c d, rest)
      else (EmptyString, s)
  | EmptyString => (EmptyString, EmptyString)
  end.

(** An integer literal: [0] or a digit string without a leading zero. *)
Definition unsignedInteger (s : string) : option (string * string) :=
  match digits s with
  | (String d ds, rest) =>
      let wellFormed := negb (Ascii.eqb d "0") || String.eqb ds EmptyString in
      let followed :=
        match rest with
        | String c _ => Ascii.eqb c "." || Ascii.eqb c "e" || Ascii.eqb c "E"
        | EmptyString => false
        end in
      if wellFormed && negb followed && (String.length ds <? 15)%nat
      then Some (String d ds, rest) else None
  | (EmptyString, _) => None
  end.

Definition integer (s : string) : option (JsValue * string) :=
  match s with
  | String c r =>
      if Ascii.eqb c "-" then
        match unsignedInteger r with
        | Some (n, rest) =>
            Some (JNumber (if String.eqb n "0" then n else String c n), rest)
        | None => None
        end
      else
        match unsignedInteger s with
        | Some (n, rest) => Some (JNumber n, rest)
        | None => None
        end
  | EmptyString => None
  end.

Fixpoint value (fuel : nat) (s : string) : option (JsValue * string) :=
  match fuel with
  | 0 => None
  | S fuel' =>
      match skipWs s with
      | EmptyString => None
      | String c r as s' =>
          if isQuote c then
            match stringBody r with
            | Some (body, rest) => Some (JString body, rest)
            | None => None
            end
          else if Ascii.eqb c "[" then
            match skipWs r with
            | String "]" rest => Some (JArray [], rest)
            | _ =>
                match elements fuel' r with
                | Some (vs, rest) => Some (JArray vs, rest)
                | None => None
                end
            end
          else if Ascii.eqb c "{" then
            match skipWs r with
            | String "}" rest => Some (JObject [], rest)
            | _ =>
                match members fuel' r with
                | Some (fs, rest) => Some (JObject fs, rest)
                | None => None
                end
            end
          else
            match stripPrefix "null" s', stripPrefix "true" s',
                  stripPrefix "false" s' with
            | Some rest, _, _ => Some (JNull, rest)
            | _, Some rest, _ => Some (JBool true, rest)
            | _, _, Some rest => Some (JBool false, rest)
            | None, None, None => integer s'
            end
      end
  end
with elements (fuel : nat) (s : string) : option (list JsValue * string) :=
  match fuel with
  | 0 => None
  | S fuel' =>
      match value fuel' s with
      | Some (v, r) =>
          match skipWs r with
          | String "," r' =>
              match elements fuel' r' with
              | Some (vs, rest) => Some (v :: vs, rest)
              | None => None
              end
          | String "]" rest => Some ([v], rest)
          | _ => None
          end
      | None => None
      end
  end
with members (fuel : nat) (s : string)
  : option (list (string * JsValue) * string) :=
  match fuel with
  | 0 => None
  | S fuel' =>
      match stringLiteral (skipWs s) with
      | Some (key, r1) =>
          match skipWs r1 with
          | String ":" r2 =>
              match value fuel' r2 with
              | Some (v, r3) =>
                  match skipWs r3 with
                  | String "," r4 =>
                      match members fuel' r4 with
                      | Some (fs, rest) => Some ((key, v) :: fs, rest)
                      | None => None
                      end
                  | String "}" rest => Some ([(key, v)], rest)
                  | _ => None
                  end
              | None => None
              end
          | _ => None
          end
      | None => None
      end
  end.

(** The text with each apostrophe turned into a double quote, to write
    JSON texts as ['{'type':'stream_end'}']. *)
Fixpoint quoted (s : string) : string :=
  match s with
  | EmptyString => EmptyString
  | String c r =>
      String (if Ascii.eqb c "'" then ascii_of_N 34 else c) (quoted r)
  end.

Definition parse (text : string) : Completion JsValue :=
  match value (S (String.length text)) text with
  | Some (v, rest) =>
      match skipWs rest with
      | EmptyString => Normal v
      | String _ _ => Throw SyntaxError
      end
  | None => Throw SyntaxError
  end.

End Json.

(** ** The component's state (App.js, lines 35-48) *)

(** The [type] field of an entry of [messages]. *)
Inductive MessageType : Type := user | assistant | system.

(** An entry of [messages]: [{ type, content, model }]; only assistant
    entries carry [model]. *)
Record Message : Type := mkMessage {
  type : MessageType;
  content : string;
  model : option string
}.

Inductive ReadyState : Type := CONNECTING | OPEN | CLOSING | CLOSED.

(** A [WebSocket] created by the connection effect.  Its handlers are
    closures of the render in which the effect ran: [closureModel] and
    [closureInitialConnectionMade] are the values of [selectedModel] and
    [initialConnectionMade] that they captured.  [sent] lists the objects
    handed to [JSON.stringify] and [send], in order. *)
Record WebSocket : Type := mkWebSocket {
  url : string;
  readyState : ReadyState;
  sent : list JsValue;
  closureModel : string;
  closureInitialConnectionMade : bool
}.

(** The [useState] cells of [App], the sockets created so far, and
    [socketRef.current] as an index into them ([None] is [null]). *)
Record State : Type := mkState {
  models : list string;
  selectedModel : string;
  messages : list Message;
  inputMessage : string;
  isConnected : bool;
  isStreaming : bool;
  currentResponse : string;
  initialConnectionMade : bool;
  chatHistories : JsValue;
  showHistoryModal : bool;
  sockets : list WebSocket;
  socketRef : option nat
}.

Definition initialState : State :=
  {| models := []; selectedModel := ""; messages := []; inputMessage := "";
     isConnected := false; isStreaming := false; currentResponse := "";
     initialConnectionMade := false; chatHistories := JArray [];
     showHistoryModal := false; sockets := []; socketRef := None |}.

(** The state setters.  [setMessages] and [setCurrentResponse] take the
    updater function, as the component calls them. *)
Definition setModels (v : list string) (st : State) : State :=
  mkState v (selectedModel st) (messages st) (inputMessage st)
    (isConnected st) (isStreaming st) (currentResponse st)
    (initialConnectionMade st) (chatHistories st) (showHistoryModal st)
    (sockets st) (socketRef st).

Definition setSelectedModel (v : string) (st : State) : State :=
  mkState (models st) v (messages st) (inputMessage st)
    (isConnected st) (isStreaming st) (currentResponse st)
    (initialConnectionMade st) (chatHistories st) (showHistoryModal st)
    (sockets st) (socketRef st).

Definition setMessages (f : list Message -> list Message) (st : State) : State :=
  mkState (models st) (selectedModel st) (f (messages st)) (inputMessage st)
    (isConnected st) (isStreaming st) (currentResponse st)
    (initialConnectionMade st) (chatHistories st) (showHistoryModal st)
    (sockets st) (socketRef st).

Definition setInputMessage (v : string) (st : State) : State :=
  mkState (models st) (selectedModel st) (messages st) v
    (isConnected st) (isStreaming st) (currentResponse st)
    (initialConnectionMade st) (chatHistories st) (showHistoryModal st)
    (sockets st) (socketRef st).

Definition setIsConnected (v : bool) (st : State) : State :=
  mkState (models st) (selectedModel st) (messages st) (inputMessage st)
    v (isStreaming st) (currentResponse st)
    (initialConnectionMade st) (chatHistories st) (showHistoryModal st)
    (sockets st) (socketRef st).

Definition setIsStreaming (v : bool) (st : State) : State :=
  mkState (models st) (selectedModel st) (messages st) (inputMessage st)
    (isConnected st) v (currentResponse st)
    (initialConnectionMade st) (chatHistories st) (showHistoryModal st)
    (sockets st) (socketRef st).

Definition setCurrentResponse (f : string -> string) (st : State) : State :=
  mkState (models st) (selectedModel st) (messages st) (inputMessage st)
    (isConnected st) (isStreaming st) (f (currentResponse st))
    (initialConnectionMade st) (chatHistories st) (showHistoryModal st)
    (sockets st) (socketRef st).

Definition setInitialConnectionMade (v : bool) (st : State) : State :=
  mkState (models st) (selectedModel st) (messages st) (inputMessage st)
    (isConnected st) (isStreaming st) (currentResponse st)
    v (chatHistories st) (showHistoryModal st)
    (sockets st) (socketRef st).

Definition setChatHistories (v : JsValue) (st : State) : State :=
  mkState (models st) (selectedModel st) (messages st) (inputMessage st)
    (isConnected st) (isStreaming st) (currentResponse st)
    (initialConnectionMade st) v (showHistoryModal st)
    (sockets st) (socketRef st).

(** The socket store and [socketRef.current] are not React state: writing
    them causes no render. *)
Definition withSockets (v : list WebSocket) (st : State) : State :=
  mkState (models st) (selectedModel st) (messages st) (inputMessage st)
    (isConnected st) (isStreaming st) (currentResponse st)
    (initialConnectionMade st) (chatHistories st) (showHistoryModal st)
    v (socketRef st).

Definition withSocketRef (v : option nat) (st : State) : State :=
  mkState (models st) (selectedModel st) (messages st) (inputMessage st)
    (isConnected st) (isStreaming st) (currentResponse st)
    (initialConnectionMade st) (chatHistories st) (showHistoryModal st)
    (sockets st) v.

Definition withReadyState (r : ReadyState) (s : WebSocket) : WebSocket :=
  mkWebSocket (url s) r (sent s) (closureModel s) (closureInitialConnectionMade s).

Definition withSent (frames : list JsValue) (s : WebSocket) : WebSocket :=
  mkWebSocket (url s) (readyState s) frames (closureModel s)
    (closureInitialConnectionMade s).

Definition isOpen (s : WebSocket) : bool :=
  match readyState s with OPEN => true | _ => false end.

(** ** fetchModels (App.js, lines 106-123) *)

(** How the request to [/api/models] settles, as far as [fetchModels]
    reads it.  [Body None] is a parsed body on which
    [data.models.reverse()] throws a [TypeError]: [data] is [null], or
    its [models] property is missing or is not an array.  [Body (Some l)]
    is a body whose [models] property is the array [l] of model
    identifiers. *)
Inductive FetchResult : Type :=
| NetworkFailure
| ParseFailure
| Body (dataModels : option (list string)).

Definition connectionErrorMessage : Message :=
  mkMessage system
    "Error connecting to the server. Please ensure the backend is running."
    None.

(** The [try] block: the setter calls it makes, or the error it throws. *)
Definition fetchModelsTry (r : FetchResult) (st : State) : Completion State :=
  match r with
  | NetworkFailure => Throw TypeError
  | ParseFailure => Throw SyntaxError
  | Body None => Throw TypeError
  | Body (Some dataModels) =>
      let models := rev dataModels in
      match models with
      | first :: _ => Normal (setSelectedModel first (setModels models st))
      | [] => Normal st
      end
  end.

Definition fetchModels (r : FetchResult) (st : State) : State :=
  match fetchModelsTry r st with
  | Normal st' => st'
  | Throw _ => setMessages (fun prev => prev ++ [connectionErrorMessage]) st
  end.

(** ** The effects *)

(** The effect for the end of streaming (lines 126-134). *)
Definition streamingEndEffect (st : State) : State :=
  if negb (isStreaming st) && truthy (currentResponse st) then
    setCurrentResponse (fun _ => "")
      (setMessages
         (fun prev =>
            prev ++ [mkMessage assistant (currentResponse st)
                       (Some (selectedModel st))])
         st)
  else st.

(** [if (s.readyState === WebSocket.OPEN) s.close()] on the socket at
    index [i]; [close] moves an open socket to [CLOSING]. *)
Definition closeIfOpen (i : nat) (st : State) : State :=
  match sockets st !! i with
  | Some s =>
      if isOpen s then withSockets (<[i := withReadyState CLOSING s]> (sockets st)) st
      else st
  | None => st
  end.

(** The cleanup that the connection effect returned on its previous run
    (lines 210-214).  That run returned one only when [selectedModel] was
    truthy, and the socket it closes is the one the run created, which
    [socketRef.current] still holds. *)
Definition connectCleanup (prev st : State) : State :=
  if truthy (selectedModel prev) then
    match socketRef prev with
    | Some i => closeIfOpen i st
    | None => st
    end
  else st.

(** The greeting that [onopen] appends. *)
Definition greeting (selectedModel : string) : Message :=
  mkMessage assistant
    ("Hello there! I am " +:+ getDisplayName selectedModel
       +:+ ". How can I assist you today?")
    (Some selectedModel).

(** The body of the connection effect (lines 137-208): the [WebSocket]
    constructor is taken to succeed. *)
Definition connectEffect (st : State) : State :=
  if truthy (selectedModel st) then
    let st1 :=
      match socketRef st with
      | Some i => closeIfOpen i st
      | None => st
      end in
    let socket :=
      mkWebSocket ("ws://localhost:8000/ws/" +:+ selectedModel st)
        CONNECTING [] (selectedModel st) (initialConnectionMade st) in
    withSocketRef (Some (length (sockets st1)))
      (withSockets (sockets st1 ++ [socket]) st1)
  else st.

Definition streamDepsChanged (prev st : State) : bool :=
  negb (Bool.eqb (isStreaming prev) (isStreaming st))
  || negb (String.eqb (currentResponse prev) (currentResponse st))
  || negb (String.eqb (selectedModel prev) (selectedModel st)).

Definition modelChanged (prev st : State) : bool :=
  negb (String.eqb (selectedModel prev) (selectedModel st)).

(** One render after an event: [prev] is the state of the previous
    render, [st] the state after the event's setter calls.  The effects
    whose dependencies changed run: first the cleanups, then the bodies
    in the order of their declaration.  The setter calls of the effect
    for the end of streaming cause one more render, in which that effect
    runs again and finds nothing to do. *)
Definition runEffects (prev st : State) : State :=
  let st1 := if modelChanged prev st then connectCleanup prev st else st in
  let st2 := if streamDepsChanged prev st then streamingEndEffect st1 else st1 in
  if modelChanged prev st then connectEffect st2 else st2.

(** ** The socket handlers (lines 147-205) *)

Definition onopen (socket : WebSocket) (st : State) : State :=
  let st1 := setIsConnected true st in
  if negb (closureInitialConnectionMade socket) then
    setInitialConnectionMade true
      (setMessages (fun prev => prev ++ [greeting (closureModel socket)]) st1)
  else st1.

Definition onclose (st : State) : State := setIsConnected false st.

Definition onerror (st : State) : State := setIsConnected false st.

Section Handlers.

(** [JSON.parse], a function of the platform: the parsed value, or the
    [SyntaxError] it throws. *)
Variable JSON_parse : string -> Completion JsValue.

(** The [try] block of [onmessage] (lines 166-191). *)
Definition onmessageTry (eventData : string) (st : State) : Completion State :=
  data ← JSON_parse eventData;
  dataType ← getProp data "type";
  if strictEq dataType "stream_start" then
    Normal (setCurrentResponse (fun _ => "") (setIsStreaming true st))
  else if strictEq dataType "stream" then
    dataContent ← getProp data "content";
    Normal (setCurrentResponse (fun prev => prev +:+ toString dataContent) st)
  else if strictEq dataType "stream_end" then
    Normal (setIsStreaming false st)
  else if strictEq dataType "error" then
    dataContent ← getProp data "content";
    Normal (setMessages
              (fun prev =>
                 prev ++ [mkMessage system ("Error: " +:+ toString dataContent) None])
              (setIsStreaming false st))
  else if strictEq dataType "chat_histories" then
    dataHistories ← getProp data "histories";
    Normal (setChatHistories dataHistories st)
  else Normal st.

(** [socket.onmessage]: the [catch] block logs to the console and
    leaves the state as it is. *)
Definition onmessage (eventData : string) (st : State) : State :=
  match onmessageTry eventData st with
  | Normal st' => st'
  | Throw _ => st
  end.

(** A message event and the render that follows it. *)
Definition receive (st : State) (eventData : string) : State :=
  runEffects st (onmessage eventData st).

(** Message events delivered one after the other, each followed by its
    render before the next is delivered. *)
Definition receiveAll (eventDatas : list string) (st : State) : State :=
  fold_left receive eventDatas st.

End Handlers.

(** ** handleModelChange and handleSendMessage (lines 220-244) *)

Definition handleModelChange (value : string) (st : State) : State :=
  setSelectedModel value st.

(** The frame that [handleSendMessage] serialises. *)
Definition messageFrame (inputMessage : string) : JsValue :=
  JObject [("type", JString "message"); ("content", JString inputMessage)].

(** [socketRef.current.send(...)]: a [TypeError] when [socketRef.current]
    is [null], an [InvalidStateError] on a socket that is still
    connecting; a closing or closed socket drops the frame. *)
Definition socketSend (frame : JsValue) (st : State) : Completion State :=
  match socketRef st with
  | None => Throw TypeError
  | Some i =>
      match sockets st !! i with
      | None => Throw TypeError
      | Some s =>
          match readyState s with
          | CONNECTING => Throw InvalidStateError
          | OPEN => Normal (withSockets (<[i := withSent (sent s ++ [frame]) s]> (sockets st)) st)
          | CLOSING | CLOSED => Normal st
          end
      end
  end.

(** [handleSendMessage]: the state after the setter calls that ran, and
    the error that escapes the handler, if any. *)
Definition handleSendMessage (st : State) : State * option JsError :=
  if negb (truthy (trim (inputMessage st)))
     || negb (isConnected st) || isStreaming st
  then (st, None)
  else
    let st1 :=
      setMessages (fun prev => prev ++ [mkMessage user (inputMessage st) None]) st in
    match socketSend (messageFrame (inputMessage st)) st1 with
    | Normal st2 => (setInputMessage "" st2, None)
    | Throw e => (st1, Some e)
    end.

(** ** Events *)

(** What the browser delivers to the component: the settling of the
    models request, the user's actions, and the events of the socket at
    index [i]. *)
Inductive Event : Type :=
| ModelsFetched (r : FetchResult)
| ModelSelected (value : string)
| InputChanged (value : string)
| FormSubmitted
| SocketOpened (i : nat)
| SocketMessage (i : nat) (eventData : string)
| SocketClosed (i : nat)
| SocketFailed (i : nat).

Definition setReadyState (i : nat) (r : ReadyState) (st : State) : State :=
  match sockets st !! i with
  | Some s => withSockets (<[i := withReadyState r s]> (sockets st)) st
  | None => st
  end.

Section Step.

Variable JSON_parse : string -> Completion JsValue.

(** The handler of an event, where the browser can deliver it: [open]
    on a connecting socket, [message] on an open socket, [close] and
    [error] on a socket that is not yet closed.  The controls that the
    page disables (the model selector during a stream, the Send button)
    are not taken into account: the events accepted are a superset of
    those that the page lets through. *)
Definition handle (ev : Event) (st : State) : option State :=
  match ev with
  | ModelsFetched r => Some (fetchModels r st)
  | ModelSelected value => Some (handleModelChange value st)
  | InputChanged value => Some (setInputMessage value st)
  | FormSubmitted => Some (fst (handleSendMessage st))
  | SocketOpened i =>
      match sockets st !! i with
      | Some s =>
          match readyState s with
          | CONNECTING => Some (onopen s (setReadyState i OPEN st))
          | _ => None
          end
      | None => None
      end
  | SocketMessage i eventData =>
      match sockets st !! i with
      | Some s => if isOpen s then Some (onmessage JSON_parse eventData st) else None
      | None => None
      end
  | SocketClosed i =>
      match sockets st !! i with
      | Some s =>
          match readyState s with
          | CLOSED => None
          | _ => Some (onclose (setReadyState i CLOSED st))
          end
      | None => None
      end
  | SocketFailed i =>
      match sockets st !! i with
      | Some s =>
          match readyState s with
          | CLOSED => None
          | _ => Some (onerror st)
          end
      | None => None
      end
  end.

(** One event: its handler, then the render and the effects. *)
Definition step (st : State) (ev : Event) : option State :=
  match handle ev st with
  | Some st' => Some (runEffects st st')
  | None => None
  end.

Fixpoint run (evs : list Event) (st : State) : option State :=
  match evs with
  | [] => Some st
  | ev :: rest =>
      match step st ev with
      | Some st' => run rest st'
      | None => None
      end
  end.

End Step.

(** ** The inbound frames, as the protocol names them *)

(** What [onmessage] makes of a payload: one of the five frame types it
    dispatches on, with the text that the frame's [content] contributes;
    a parsed payload that no branch handles; or a payload on which the
    [try] block throws. *)
Inductive FrameKind : Type :=
| StreamStart
| StreamDelta (text : string)
| StreamEnd
| ErrorFrame (text : string)
| ChatHistories (histories : JsValue)
| Unhandled
| Rejected.

Section Frames.

Variable JSON_parse : string -> Completion JsValue.

Definition frameOfData (data : JsValue) : FrameKind :=
  match getProp data "type" with
  | Throw _ => Rejected
  | Normal (JString t) =>
      let field name :=
        match getProp data name with
        | Normal v => v
        | Throw _ => JUndefined
        end in
      if String.eqb t "stream_start" then StreamStart
      else if String.eqb t "stream" then StreamDelta (toString (field "content"))
      else if String.eqb t "stream_end" then StreamEnd
      else if String.eqb t "error" then ErrorFrame (toString (field "content"))
      else if String.eqb t "chat_histories" then ChatHistories (field "histories")
      else Unhandled
  | Normal _ => Unhandled
  end.

Definition frameKind (eventData : string) : FrameKind :=
  match JSON_parse eventData with
  | Normal data => frameOfData data
  | Throw _ => Rejected
  end.

(** The frames that the message handler processes in a run of events:
    those of the message events, of whatever socket, in order. *)
Definition inboundFrames (evs : list Event) : list FrameKind :=
  flat_map
    (fun ev =>
       match ev with
       | SocketMessage _ eventData => [frameKind eventData]
       | _ => []
       end)
    evs.

End Frames.

(** The frames after the most recent [stream_start], when there is one. *)
Fixpoint sinceLastStart (frames : list FrameKind) : option (list FrameKind) :=
  match frames with
  | [] => None
  | frame :: rest =>
      match sinceLastStart rest with
      | Some window => Some window
      | None =>
          match frame with
          | StreamStart => Some rest
          | _ => None
          end
      end
  end.

(** A [stream_end] or an [error] closes the window that a [stream_start]
    opened. *)
Definition closesWindow (frame : FrameKind) : bool :=
  match frame with
  | StreamEnd | ErrorFrame _ => true
  | _ => false
  end.

Definition deltaText (frame : FrameKind) : string :=
  match frame with
  | StreamDelta text => text
  | _ => EmptyString
  end.

(** Whether a stream is in flight after [frames]: a [stream_start] has
    arrived and no [stream_end] or [error] since. *)
Definition windowOpen (frames : list FrameKind) : bool :=
  match sinceLastStart frames with
  | Some window => negb (existsb closesWindow window)
  | None => false
  end.

(** The Streaming Buffer that the specification describes: while a stream
    is in flight, the deltas received since its [stream_start], in
    arrival order; empty outside a stream, where deltas contribute
    nothing and a finished stream has been cleared. *)
Definition windowBuffer (frames : list FrameKind) : string :=
  match sinceLastStart frames with
  | Some window =>
      if existsb closesWindow window then EmptyString
      else String.concat "" (map deltaText window)
  | None => EmptyString
  end.

(** ** Example payloads and states *)
Module Examples.

Definition streamStart : string := Json.quoted "{'type':'stream_start'}".
Definition streamHel : string := Json.quoted "{'type':'stream','content':'Hel'}".
Definition streamLo : string := Json.quoted "{'type':'stream','content':'lo'}".
Definition streamNothing : string := Json.quoted "{'type':'stream','content':''}".
Definition streamEnd : string := Json.quoted "{'type':'stream_end'}".
Definition errorOverloaded : string :=
  Json.quoted "{'type':'error','content':'overloaded'}".
Definition truncated : string := Json.quoted "{'type':'stream','content':'Hel".

(** The session after the server has listed two models and the socket of
    the default selection has opened. *)
Definition connected : State :=
  default initialState
    (run Json.parse
       [ModelsFetched (Body (Some ["gemma2:2b"; "mistral:latest"]));
        SocketOpened 0]
       initialState).

(** The same session in the middle of a stream. *)
Definition midStream : State :=
  receiveAll Json.parse [streamStart; streamHel] connected.

(** The same session after the user has typed white space only. *)
Definition blankInput : State :=
  default connected (step Json.parse connected (InputChanged "   ")).

End Examples.

(** ** The rest of the component *)

(** The [disabled] attribute of the Send button (line 329). *)
Definition sendDisabled (st : State) : bool :=
  negb (isConnected st) || isStreaming st
  || negb (truthy (trim (inputMessage st))).

(** The header of a rendered message (lines 290-291).  On an assistant
    message without [model], [getDisplayName(undefined)] throws a
    [TypeError]. *)
Definition messageHeader (message : Message) : Completion string :=
  match type message with
  | user => Normal "You"
  | assistant =>
      match model message with
      | Some modelName => Normal (getDisplayName modelName)
      | None => Throw TypeError
      end
  | system => Normal "System"
  end.

Definition isMessageEvent (ev : Event) : bool :=
  match ev with
  | SocketMessage _ _ => true
  | _ => false
  end.

(** [socketRef.current], closed if it is open. *)
Definition closeCurrent (st : State) : State :=
  match socketRef st with
  | Some i => closeIfOpen i st
  | None => st
  end.

Definition setShowHistoryModal (v : bool) (st : State) : State :=
  mkState (models st) (selectedModel st) (messages st) (inputMessage st)
    (isConnected st) (isStreaming st) (currentResponse st)
    (initialConnectionMade st) (chatHistories st) v
    (sockets st) (socketRef st).

(** The frame that [loadChatHistory] serialises. *)
Definition loadHistoryFrame (historyId : string) : JsValue :=
  JObject [("type", JString "load_history"); ("history_id", JString historyId)].

(** [loadChatHistory] (lines 70-78). *)
Definition loadChatHistory (historyId : string) (st : State) : State :=
  match socketRef st with
  | Some i =>
      match sockets st !! i with
      | Some s =>
          if isOpen s then
            setShowHistoryModal false
              (withSockets
                 (<[i := withSent (sent s ++ [loadHistoryFrame historyId]) s]>
                    (sockets st))
                 st)
          else st
      | None => st
      end
  | None => st
  end.

(** ** The code component of the markdown renderer (lines 51-69) *)
Module Markdown.

(** The class [\w] of a regular expression: [[A-Za-z0-9_]]. *)
Definition isWordChar (c : ascii) : bool := isAlnum c || (code c =? 95)%N.

(** The longest prefix of word characters, and what follows it. *)
Fixpoint takeWord (s : string) : string * string :=
  match s with
  | String c r =>
      if isWordChar c then let '(w, rest) := takeWord r in (String c w, rest)
      else (EmptyString, s)
  | EmptyString => (EmptyString, EmptyString)
  end.

(** A match of [/language-(\w+)/] that starts at the front of [s]: its
    capture group. *)
Definition languageAt (s : string) : option string :=
  match Json.stripPrefix "language-" s with
  | Some r =>
      match takeWord r with
      | (String c w, _) => Some (String c w)
      | (EmptyString, _) => None
      end
  | None => None
  end.

(** [/language-(\w+)/.exec(className)]: the capture group of the leftmost
    match. *)
Fixpoint languageMatch (className : string) : option string :=
  match languageAt className with
  | Some language => Some language
  | None =>
      match className with
      | String _ r => languageMatch r
      | EmptyString => None
      end
  end.

Definition newline : ascii := ascii_of_N 10.

(** [text.replace(/\n$/, '')]: the text without its last character when
    that is a line feed. *)
Fixpoint stripFinalNewline (text : string) : string :=
  match text with
  | EmptyString => EmptyString
  | String c EmptyString =>
      if Ascii.eqb c newline then EmptyString else text
  | String c r => String c (stripFinalNewline r)
  end.

(** What the component returns: the syntax highlighter with a language
    and a text, or a plain [code] element. *)
Inductive Rendering : Type :=
| Highlighted (language text : string)
| PlainCode (className : option string) (children : string).

(** The component, with [className] possibly [undefined] and [children]
    already converted by [String]. *)
Definition codeComponent (inline : bool) (className : option string)
    (children : string) : Rendering :=
  let matched := languageMatch (default EmptyString className) in
  if negb inline then
    match matched with
    | Some language => Highlighted language (stripFinalNewline children)
    | None => PlainCode className children
    end
  else PlainCode className children.

End Markdown.

(** ** More example states *)
Module Scenarios.

(** The session of [Examples.connected] after the user has picked the
    other model and its socket has opened. *)
Definition switched : State :=
  default initialState
    (run Json.parse
       [ModelSelected "gemma2:2b"; SocketOpened 1] Examples.connected).

(** The same session with a message typed in. *)
Definition typed : State := setInputMessage " hi " Examples.connected.

End Scenarios.

(** * Properties *)

(** ** Characters and strings *)

Ltac each_char c :=
  destruct c as [[] [] [] [] [] [] [] []]; vm_compute; try reflexivity; try discriminate.

Lemma lowerChar_idempotent (c : ascii) : lowerChar (lowerChar c) = lowerChar c.
Proof. each_char c. Qed.

Lemma upperChar_idempotent (c : ascii) : upperChar (upperChar c) = upperChar c.
Proof. each_char c. Qed.

Lemma isAlnum_lowerChar (c : ascii) : isAlnum (lowerChar c) = isAlnum c.
Proof. each_char c. Qed.

Lemma isAlnum_upperChar (c : ascii) : isAlnum (upperChar c) = isAlnum c.
Proof. each_char c. Qed.

Lemma isUpper_lowerChar (c : ascii) : isUpper (lowerChar c) = false.
Proof. each_char c. Qed.

Lemma isLower_upperChar (c : ascii) : isLower (upperChar c) = false.
Proof. each_char c. Qed.

Lemma colon_lowerChar (c : ascii) :
  Ascii.eqb (lowerChar c) ":" = Ascii.eqb c ":".
Proof. each_char c. Qed.

Lemma toLowerCase_idempotent (s : string) :
  toLowerCase (toLowerCase s) = toLowerCase s.
Proof.
  induction s as [|c r IH]; simpl; [reflexivity|].
  now rewrite lowerChar_idempotent, IH.
Qed.

Lemma allChars_ext (p q : ascii -> bool) (s : string) :
  (forall c, p c = q c) -> allChars p s = allChars q s.
Proof.
  intros E. induction s as [|c r IH]; simpl; [reflexivity|].
  now rewrite E, IH.
Qed.

Lemma allChars_app (p : ascii -> bool) (s t : string) :
  allChars p (s +:+ t) = allChars p s && allChars p t.
Proof.
  induction s as [|c r IH]; simpl; [reflexivity|].
  now rewrite IH, andb_assoc.
Qed.

Lemma allChars_toLowerCase (p : ascii -> bool) (s : string) :
  (forall c, p (lowerChar c) = p c) ->
  allChars p (toLowerCase s) = allChars p s.
Proof.
  intros E. induction s as [|c r IH]; simpl; [reflexivity|].
  now rewrite E, IH.
Qed.

Lemma allChars_join (p : ascii -> bool) (sep : string) (l : list string) :
  allChars p sep = true ->
  Forall (fun w => allChars p w = true) l ->
  allChars p (join sep l) = true.
Proof.
  intros Hsep Hl. unfold join.
  induction Hl as [|w l Hw Hl IH]; [reflexivity|].
  destruct l as [|w' l']; simpl; [exact Hw|].
  rewrite !allChars_app, Hw, Hsep. exact IH.
Qed.

Lemma startsWith_allChars (p : ascii -> bool) (s k : string) :
  startsWith s k = true -> allChars p s = true -> allChars p k = true.
Proof.
  revert s. induction k as [|a k IH]; intros s; [reflexivity|].
  destruct s as [|b s]; simpl; [discriminate|].
  intros H1 H2. apply andb_prop in H1 as [Hab Hk].
  apply andb_prop in H2 as [Hb Hs].
  apply Ascii.eqb_eq in Hab. subst b.
  rewrite Hb. simpl. eauto.
Qed.

(** A string that [s] includes has only characters that [s] has. *)
Lemma includes_allChars (p : ascii -> bool) (s k : string) :
  includes s k = true -> allChars p s = true -> allChars p k = true.
Proof.
  induction s as [|c r IH]; simpl.
  - rewrite orb_false_r. intros H _.
    now apply (startsWith_allChars p EmptyString k).
  - intros H Hs. apply orb_prop in H as [H|H].
    + now apply (startsWith_allChars p (String c r) k).
    + apply andb_prop in Hs as [_ Hr]. auto.
Qed.

Lemma startsWith_refl (s : string) : startsWith s s = true.
Proof.
  induction s as [|c r IH]; simpl; [reflexivity|].
  now rewrite Ascii.eqb_refl.
Qed.

Lemma includes_refl (s : string) : includes s s = true.
Proof. destruct s; simpl; [reflexivity|]. now rewrite Ascii.eqb_refl, startsWith_refl. Qed.

(** ** split and join *)

Lemma split_not_nil (sep : ascii -> bool) (s : string) : split sep s <> [].
Proof.
  induction s as [|c r IH]; simpl; [discriminate|].
  destruct (sep c); [discriminate|].
  destruct (split sep r); discriminate.
Qed.

(** No piece of a split holds a separator. *)
Lemma split_pieces (sep : ascii -> bool) (s : string) :
  Forall (fun w => allChars (fun c => negb (sep c)) w = true) (split sep s).
Proof.
  induction s as [|c r IH]; simpl.
  - repeat constructor.
  - destruct (sep c) eqn:E.
    + constructor; [reflexivity | exact IH].
    + destruct (split sep r) as [|w ws]; [repeat constructor; simpl; now rewrite E|].
      inversion IH; subst. constructor; [simpl; rewrite E; simpl; assumption | assumption].
Qed.

Lemma split_no_separator (sep : ascii -> bool) (s : string) :
  allChars (fun c => negb (sep c)) s = true -> split sep s = [s].
Proof.
  induction s as [|c r IH]; simpl; [reflexivity|].
  intros H. apply andb_prop in H as [Hc Hr].
  apply negb_true_iff in Hc. rewrite Hc, (IH Hr). reflexivity.
Qed.

Lemma split_app_separator (sep : ascii -> bool) (w : string) (c : ascii) (rest : string) :
  allChars (fun x => negb (sep x)) w = true -> sep c = true ->
  split sep (w +:+ String c rest) = w :: split sep rest.
Proof.
  intros Hw Hc. induction w as [|a w IH]; simpl.
  - now rewrite Hc.
  - simpl in Hw. apply andb_prop in Hw as [Ha Hw].
    apply negb_true_iff in Ha. rewrite Ha, (IH Hw). reflexivity.
Qed.

(** Splitting a join gives the pieces back. *)
Lemma split_join (sep : ascii -> bool) (c : ascii) (l : list string) :
  sep c = true -> l <> [] ->
  Forall (fun w => allChars (fun x => negb (sep x)) w = true) l ->
  split sep (join (String c EmptyString) l) = l.
Proof.
  intros Hc Hne Hl. unfold join.
  induction Hl as [|w l Hw Hl IH]; [congruence|].
  destruct l as [|w' l'].
  - simpl. now apply split_no_separator.
  - change (String.concat (String c "") (w :: w' :: l'))
      with (w +:+ String c (String.concat (String c "") (w' :: l'))).
    rewrite split_app_separator by assumption.
    rewrite IH by discriminate. reflexivity.
Qed.

Lemma join_empty_iff (c : ascii) (l : list string) :
  join (String c EmptyString) l = EmptyString <-> l = [] \/ l = [EmptyString].
Proof.
  unfold join. split.
  - destruct l as [|w [|w' l']]; simpl.
    + auto.
    + intros ->. auto.
    + destruct w; simpl; discriminate.
  - intros [-> | ->]; reflexivity.
Qed.

Lemma split_eq_empty (sep : ascii -> bool) (s : string) :
  split sep s = [EmptyString] <-> s = EmptyString.
Proof.
  split; [|intros ->; reflexivity].
  destruct s as [|c r]; [reflexivity|]. simpl.
  destruct (sep c).
  - intros H. injection H as H. now apply split_not_nil in H.
  - destruct (split sep r); discriminate.
Qed.

(** ** getDisplayName *)

Lemma capitalize_cons (c : ascii) (r : string) :
  capitalize (String c r) = String (upperChar c) (toLowerCase r).
Proof. reflexivity. Qed.

Lemma capitalize_idempotent (w : string) : capitalize (capitalize w) = capitalize w.
Proof.
  destruct w as [|c r]; [reflexivity|].
  rewrite !capitalize_cons.
  now rewrite upperChar_idempotent, toLowerCase_idempotent.
Qed.

Lemma capitalize_isTitleCased (w : string) :
  allChars isAlnum w = true -> isTitleCased (capitalize w) = true.
Proof.
  destruct w as [|c r]; [reflexivity|].
  rewrite capitalize_cons. unfold isTitleCased. simpl.
  intros H. apply andb_prop in H as [Hc Hr].
  rewrite isAlnum_upperChar, Hc, isLower_upperChar.
  rewrite (allChars_toLowerCase isAlnum) by apply isAlnum_lowerChar.
  rewrite Hr. simpl.
  clear. induction r as [|a r IH]; simpl; [reflexivity|].
  now rewrite isUpper_lowerChar, IH.
Qed.

Lemma isTitleCased_alnum (w : string) :
  isTitleCased w = true -> allChars isAlnum w = true.
Proof. unfold isTitleCased. intros H. now apply andb_prop in H as [H _]. Qed.

(** The fragments that the formatting branch works on are made of
    letters and digits. *)
Lemma split_isSeparator (s : string) :
  Forall (fun w => allChars isAlnum w = true) (split isSeparator s).
Proof.
  eapply List.Forall_impl; [|apply split_pieces].
  intros w H. simpl in H. rewrite <- H. apply allChars_ext.
  intros c. unfold isSeparator. now rewrite negb_involutive.
Qed.

Lemma capitalized_fragments (s : string) :
  Forall (fun w => isTitleCased w = true)
    (map capitalize (split isSeparator s)).
Proof.
  apply List.Forall_map. eapply List.Forall_impl; [|apply split_isSeparator].
  intros w. apply capitalize_isTitleCased.
Qed.

Definition notColon (c : ascii) : bool := negb (Ascii.eqb c ":").

(** A name without a colon matches no key of [modelMap]. *)
Lemma lookupKnown_no_colon (s : string) :
  allChars notColon s = true -> lookupKnown s modelMap = None.
Proof.
  intros H.
  assert (L : allChars notColon (toLowerCase s) = true).
  { rewrite allChars_toLowerCase; [exact H|].
    intros c. unfold notColon. now rewrite colon_lowerChar. }
  assert (K : forall k, allChars notColon k = false ->
                        includes (toLowerCase s) k = false).
  { intros k Hk. destruct (includes (toLowerCase s) k) eqn:E; [|reflexivity].
    rewrite (includes_allChars notColon _ _ E L) in Hk. discriminate. }
  unfold lookupKnown, modelMap.
  rewrite !K by reflexivity. reflexivity.
Qed.

Lemma alnum_notColon (w : string) :
  allChars isAlnum w = true -> allChars notColon w = true.
Proof.
  induction w as [|c r IH]; simpl; [reflexivity|].
  intros H. apply andb_prop in H as [Hc Hr]. rewrite (IH Hr), andb_true_r.
  revert Hc. each_char c.
Qed.

Lemma alnum_not_separator (w : string) :
  allChars isAlnum w = true ->
  allChars (fun c => negb (isSeparator c)) w = true.
Proof.
  intros H. rewrite <- H. apply allChars_ext.
  intros c. unfold isSeparator. now rewrite negb_involutive.
Qed.

(** What the formatting branch returns is a fixed point of
    [getDisplayName]. *)
Lemma getDisplayName_formatted (ws : list string) :
  ws <> [] ->
  Forall (fun w => allChars isAlnum w = true) ws ->
  getDisplayName (join " " (map capitalize ws)) = join " " (map capitalize ws).
Proof.
  intros Hne Hws.
  assert (Hcap : Forall (fun w => allChars isAlnum w = true) (map capitalize ws)).
  { apply List.Forall_map. eapply List.Forall_impl; [|exact Hws].
    intros w Hw. simpl. apply isTitleCased_alnum.
    now apply capitalize_isTitleCased. }
  set (r := join " " (map capitalize ws)).
  assert (Hr : allChars notColon r = true).
  { apply allChars_join; [reflexivity|].
    eapply List.Forall_impl; [|exact Hcap]. intros w. apply alnum_notColon. }
  unfold getDisplayName.
  rewrite (lookupKnown_no_colon r Hr).
  rewrite (split_no_separator (Ascii.eqb ":") r Hr).
  cbv zeta. unfold r at 1.
  rewrite (split_join isSeparator " " (map capitalize ws)).
  - unfold r. f_equal. rewrite map_map. apply map_ext.
    intros w. apply capitalize_idempotent.
  - reflexivity.
  - destruct ws; [congruence | discriminate].
  - eapply List.Forall_impl; [|exact Hcap]. intros w. apply alnum_not_separator.
Qed.

Lemma lookupKnown_values (s v : string) :
  lookupKnown s modelMap = Some v ->
  v = "Mistral" \/ v = "DeepSeek R1" \/ v = "Llama 3.2" \/ v = "Gemma 2".
Proof.
  unfold lookupKnown, modelMap.
  repeat match goal with
         | |- context [if ?b then _ else _] => destruct b
         end; intros H; inversion H; auto.
Qed.

(** The name depends on the input through its lower-cased form only. *)
Lemma lookupKnown_casing (s t : string) (entries : list (string * string)) :
  toLowerCase s = toLowerCase t ->
  lookupKnown s entries = lookupKnown t entries.
Proof.
  intros E. induction entries as [|[k v] rest IH]; simpl; [reflexivity|].
  now rewrite E, IH.
Qed.

(** An input that matches no alias goes through the formatting branch. *)
Lemma getDisplayName_unmapped (s : string) :
  lookupKnown s modelMap = None ->
  getDisplayName s
  = join " " (map capitalize
                (split isSeparator (hd EmptyString (split (Ascii.eqb ":") s)))).
Proof.
  intros Hnone. unfold getDisplayName. rewrite Hnone. cbv zeta.
  destruct (split (Ascii.eqb ":") s) as [|p ps] eqn:Esplit;
    [now apply split_not_nil in Esplit | reflexivity].
Qed.

(** The loop returns the value of the first key that the lower-cased
    name includes. *)
Lemma lookupKnown_first_match (s k v : string) (pre post : list (string * string)) :
  includes (toLowerCase s) (toLowerCase k) = true ->
  Forall (fun kv => includes (toLowerCase s) (toLowerCase (fst kv)) = false) pre ->
  lookupKnown s (pre ++ (k, v) :: post) = Some v.
Proof.
  intros Hk Hpre. induction Hpre as [|[k' v'] pre Hk' Hpre IH]; simpl.
  - now rewrite Hk.
  - simpl in Hk'. now rewrite Hk'.
Qed.

(** C5, as the code has it: [getDisplayName] is a total function of its
    string argument.  An input whose lower-cased form is a key of the
    alias table, or includes one and none of the keys listed before it,
    gets that key's display name, whatever its casing, and two inputs
    that differ in casing only get the same alias.  For an input that
    matches no alias the result is the fragments of the text before the
    first colon, each title-cased, joined by single spaces; it is empty
    exactly when that text is empty.  The two examples of the
    specification hold. *)
Theorem getDisplayName_total (s : string) :
  (forall k v, In (k, v) modelMap -> toLowerCase s = k -> getDisplayName s = v)
  /\ (forall pre k v post,
        modelMap = pre ++ (k, v) :: post ->
        includes (toLowerCase s) (toLowerCase k) = true ->
        Forall (fun kv => includes (toLowerCase s) (toLowerCase (fst kv)) = false)
          pre ->
        getDisplayName s = v)
  /\ (forall t, toLowerCase t = toLowerCase s ->
                lookupKnown t modelMap = lookupKnown s modelMap)
  /\ (lookupKnown s modelMap = None ->
      let part0 := hd EmptyString (split (Ascii.eqb ":") s) in
      let words := map capitalize (split isSeparator part0) in
      getDisplayName s = join " " words
      /\ Forall (fun w => isTitleCased w = true) words
      /\ (getDisplayName s = EmptyString <-> part0 = EmptyString))
  /\ getDisplayName "gemma2:2b" = "Gemma 2"
  /\ getDisplayName "custom-model:7b" = "Custom Model".
Proof.
  split; [|split; [|split; [|split; [|split; reflexivity]]]].
  - intros k v Hin Hs. unfold getDisplayName, lookupKnown.
    unfold modelMap in *. rewrite Hs.
    simpl in Hin.
    destruct Hin as [H|[H|[H|[H|H]]]]; try contradiction;
      inversion H; subst k v; reflexivity.
  - intros pre k v post Hmap Hk Hpre. unfold getDisplayName.
    rewrite Hmap. now rewrite (lookupKnown_first_match s k v pre post Hk Hpre).
  - intros t E. now apply lookupKnown_casing.
  - intros Hnone part0 words.
    assert (E : getDisplayName s = join " " words)
      by (now apply getDisplayName_unmapped).
    split; [exact E|]. split; [apply capitalized_fragments|].
    rewrite E. subst words. rewrite join_empty_iff. split.
    + intros [H|H].
      * apply map_eq_nil in H. now apply split_not_nil in H.
      * destruct (split isSeparator part0) as [|w [|w' ws]] eqn:Ew;
          try discriminate.
        injection H as H. destruct w; [|discriminate].
        now apply split_eq_empty in Ew.
    + intros ->. right. reflexivity.
Qed.

(** C5, as the specification states it, fails on the empty name, which
    the component passes on its first render: no alias matches it and the
    result is the empty string. *)
Lemma getDisplayName_empty_result :
  lookupKnown EmptyString modelMap = None
  /\ getDisplayName EmptyString = EmptyString
  /\ lookupKnown ":7b" modelMap = None
  /\ getDisplayName ":7b" = EmptyString.
Proof. repeat split. Qed.

(** C6, as the code has it: applying [getDisplayName] twice gives the
    same as applying it once for every input that matches no alias, and
    in general exactly when the first result is neither of the two display
    names that the formatting branch rewrites: it turns the alias name
    DeepSeek R1 into Deepseek R1 and Llama 3.2 into Llama 3 2. *)
Theorem getDisplayName_twice (s : string) :
  (lookupKnown s modelMap = None ->
   getDisplayName (getDisplayName s) = getDisplayName s)
  /\ (getDisplayName (getDisplayName s) = getDisplayName s
      <-> getDisplayName s <> "DeepSeek R1" /\ getDisplayName s <> "Llama 3.2")
  /\ getDisplayName "DeepSeek R1" = "Deepseek R1"
  /\ getDisplayName "Llama 3.2" = "Llama 3 2".
Proof.
  assert (F : lookupKnown s modelMap = None ->
              getDisplayName (getDisplayName s) = getDisplayName s).
  { intros Hnone. rewrite (getDisplayName_unmapped s Hnone).
    apply getDisplayName_formatted.
    - intros Hnil. now apply split_not_nil in Hnil.
    - apply split_isSeparator. }
  split; [exact F|]. split; [|split; reflexivity].
  split.
  - intros H. split; intros E; rewrite E in H; vm_compute in H; discriminate.
  - intros [H1 H2].
    destruct (lookupKnown s modelMap) as [v|] eqn:Ev; [|now apply F].
    assert (E : getDisplayName s = v) by (unfold getDisplayName; now rewrite Ev).
    rewrite E in *.
    destruct (lookupKnown_values s v Ev) as [-> | [-> | [-> | ->]]];
      try reflexivity; congruence.
Qed.

(** C6, as the specification states it, fails on an alias of the table. *)
Lemma getDisplayName_not_idempotent :
  getDisplayName "deepseek-r1:latest" = "DeepSeek R1"
  /\ getDisplayName (getDisplayName "deepseek-r1:latest") = "Deepseek R1"
  /\ getDisplayName (getDisplayName "deepseek-r1:latest")
     <> getDisplayName "deepseek-r1:latest".
Proof. repeat split. vm_compute. discriminate. Qed.

(** ** Renders and effects *)

Lemma runEffects_unchanged (st : State) : runEffects st st = st.
Proof.
  unfold runEffects, modelChanged, streamDepsChanged.
  now rewrite Bool.eqb_reflx, !String.eqb_refl.
Qed.

(** The effect for the end of streaming leaves a state alone when a
    stream is in flight or the buffer is empty. *)
Lemma streamingEndEffect_settled (st : State) :
  isStreaming st = true \/ currentResponse st = EmptyString ->
  streamingEndEffect st = st.
Proof.
  unfold streamingEndEffect. intros [H|H]; rewrite H; [reflexivity|].
  now rewrite andb_false_r.
Qed.

(** After the effect has run once, running it again changes nothing: the
    render that its own setter calls cause is the last one. *)
Lemma streamingEndEffect_idempotent (st : State) :
  streamingEndEffect (streamingEndEffect st) = streamingEndEffect st.
Proof.
  apply streamingEndEffect_settled.
  unfold streamingEndEffect.
  destruct (isStreaming st) eqn:S; simpl; [now left|].
  destruct (currentResponse st) eqn:B; simpl; right; [exact B | reflexivity].
Qed.

(** From a state that the effect leaves alone, an event that keeps the
    selected model is followed by exactly the effect for the end of
    streaming. *)
Lemma runEffects_same_model (prev st : State) :
  selectedModel st = selectedModel prev ->
  isStreaming prev = true \/ currentResponse prev = EmptyString ->
  runEffects prev st = streamingEndEffect st.
Proof.
  intros Hm Hprev. unfold runEffects, modelChanged.
  rewrite Hm, String.eqb_refl. simpl.
  destruct (streamDepsChanged prev st) eqn:E; [reflexivity|].
  unfold streamDepsChanged in E.
  apply orb_false_elim in E as [E _]. apply orb_false_elim in E as [E1 E2].
  apply negb_false_iff in E1, E2.
  apply Bool.eqb_prop in E1. apply String.eqb_eq in E2.
  symmetry. apply streamingEndEffect_settled. rewrite <- E1, <- E2. exact Hprev.
Qed.

Section Properties.

Variable JSON_parse : string -> Completion JsValue.

(** ** onmessage, frame by frame *)

(** [onmessage] is determined by the kind of the frame. *)
Lemma onmessage_frameKind (eventData : string) (st : State) :
  onmessage JSON_parse eventData st =
  match frameKind JSON_parse eventData with
  | StreamStart => setCurrentResponse (fun _ => EmptyString) (setIsStreaming true st)
  | StreamDelta text => setCurrentResponse (fun prev => prev +:+ text) st
  | StreamEnd => setIsStreaming false st
  | ErrorFrame text =>
      setMessages (fun prev => prev ++ [mkMessage system ("Error: " +:+ text) None])
        (setIsStreaming false st)
  | ChatHistories histories => setChatHistories histories st
  | Unhandled | Rejected => st
  end.
Proof.
  unfold onmessage, onmessageTry, frameKind, frameOfData, mbind, Completion_bind.
  destruct (JSON_parse eventData) as [data|e]; [|reflexivity].
  destruct data as [| | | | |l|fields]; try reflexivity.
  unfold getProp.
  destruct (lookupField "type" fields) as [ty|]; [|reflexivity].
  destruct ty as [| | | |t| |]; try reflexivity.
  unfold strictEq.
  repeat (match goal with
          | |- context [if String.eqb t ?k then _ else _] =>
              destruct (String.eqb t k)
          end;
          [try destruct (lookupField _ fields); reflexivity|]).
  reflexivity.
Qed.

Lemma selectedModel_onmessage (eventData : string) (st : State) :
  selectedModel (onmessage JSON_parse eventData st) = selectedModel st.
Proof. rewrite onmessage_frameKind. now destruct (frameKind JSON_parse eventData). Qed.

Lemma receive_settled (eventData : string) (st : State) :
  isStreaming st = true \/ currentResponse st = EmptyString ->
  receive JSON_parse st eventData
  = streamingEndEffect (onmessage JSON_parse eventData st).
Proof.
  intros H. unfold receive.
  apply runEffects_same_model; [apply selectedModel_onmessage | exact H].
Qed.

(** A [stream_start] opens a stream whatever the state. *)
Lemma receive_stream_start (eventData : string) (st : State) :
  frameKind JSON_parse eventData = StreamStart ->
  receive JSON_parse st eventData
  = setCurrentResponse (fun _ => EmptyString) (setIsStreaming true st).
Proof.
  intros K. unfold receive. rewrite onmessage_frameKind, K.
  unfold runEffects, modelChanged. simpl.
  rewrite String.eqb_refl. simpl.
  now destruct (streamDepsChanged _ _).
Qed.

(** A delta that arrives during a stream is appended to the buffer. *)
Lemma receive_stream_delta (eventData text : string) (st : State) :
  frameKind JSON_parse eventData = StreamDelta text ->
  isStreaming st = true ->
  receive JSON_parse st eventData
  = setCurrentResponse (fun prev => prev +:+ text) st.
Proof.
  intros K S. rewrite receive_settled by auto.
  rewrite onmessage_frameKind, K.
  apply streamingEndEffect_settled. left. exact S.
Qed.

Lemma string_app_cons (x : ascii) (a b : string) :
  String x a +:+ b = String x (a +:+ b).
Proof. reflexivity. Qed.

Lemma string_app_assoc (a b c : string) : (a +:+ b) +:+ c = a +:+ (b +:+ c).
Proof.
  induction a as [|x a IH]; [reflexivity|].
  now rewrite !string_app_cons, IH.
Qed.

Lemma string_app_empty_r (a : string) : a +:+ EmptyString = a.
Proof.
  induction a as [|x a IH]; [reflexivity|].
  now rewrite string_app_cons, IH.
Qed.

Lemma concat_cons (x : string) (l : list string) :
  String.concat EmptyString (x :: l) = x +:+ String.concat EmptyString l.
Proof. destruct l; simpl; [now rewrite string_app_empty_r | reflexivity]. Qed.

Lemma concat_snoc (l : list string) (x : string) :
  String.concat EmptyString (l ++ [x]) = String.concat EmptyString l +:+ x.
Proof.
  induction l as [|y l IH]; [reflexivity|].
  change ((y :: l) ++ [x]) with (y :: (l ++ [x])).
  now rewrite !concat_cons, IH, string_app_assoc.
Qed.

(** The deltas of a stream accumulate in arrival order. *)
Lemma receiveAll_deltas (eventDatas texts : list string) (st : State) :
  Forall2 (fun p t => frameKind JSON_parse p = StreamDelta t) eventDatas texts ->
  isStreaming st = true ->
  receiveAll JSON_parse eventDatas st
  = setCurrentResponse (fun prev => prev +:+ String.concat EmptyString texts) st.
Proof.
  intros H. revert st. unfold receiveAll.
  induction H as [|p t ps ts Hp Hps IH]; intros st S.
  - simpl. destruct st; unfold setCurrentResponse; simpl.
    now rewrite string_app_empty_r.
  - cbn [fold_left]. rewrite (receive_stream_delta p t st Hp S).
    rewrite IH by exact S. rewrite concat_cons.
    destruct st; unfold setCurrentResponse; simpl.
    now rewrite string_app_assoc.
Qed.

(** A [stream_end] or an [error] that closes a stream with a non-empty
    buffer is followed by the effect, which moves the buffer to the
    history. *)
Lemma streamingEndEffect_finalizes (st : State) :
  isStreaming st = false -> currentResponse st <> EmptyString ->
  streamingEndEffect st
  = setCurrentResponse (fun _ => EmptyString)
      (setMessages
         (fun prev => prev ++ [mkMessage assistant (currentResponse st)
                                 (Some (selectedModel st))]) st).
Proof.
  intros S B. unfold streamingEndEffect. rewrite S.
  destruct (currentResponse st); [congruence | reflexivity].
Qed.

(** C1, as the code has it: an [error] frame with content [text] that
    arrives during a stream with a non-empty buffer appends exactly one
    system message [Error: text], ends the stream and leaves the
    connection state alone; the effect for the end of streaming then
    appends the partial buffer as an assistant message of the selected
    model and clears the buffer. *)
Theorem error_frame_mid_stream (st : State) (eventData text : string) :
  isStreaming st = true ->
  currentResponse st <> EmptyString ->
  frameKind JSON_parse eventData = ErrorFrame text ->
  let st' := receive JSON_parse st eventData in
  messages st'
  = messages st
      ++ [mkMessage system ("Error: " +:+ text) None;
          mkMessage assistant (currentResponse st) (Some (selectedModel st))]
  /\ isStreaming st' = false
  /\ currentResponse st' = EmptyString
  /\ isConnected st' = isConnected st.
Proof.
  intros S B K st'. subst st'.
  rewrite receive_settled by auto.
  rewrite onmessage_frameKind, K.
  rewrite streamingEndEffect_finalizes; [|reflexivity|exact B].
  simpl. rewrite <- List.app_assoc. auto.
Qed.

(** C4: the frames [stream_start], [stream] with contents [texts] and
    [stream_end], received while model [selectedModel st] is selected and
    with a non-empty concatenation of the contents, append exactly one
    message: an assistant message whose content is the concatenation and
    whose model is the selected one.  The buffer is empty afterwards and
    no stream is in flight. *)
Theorem stream_finalized (st : State) (startData endData : string)
    (deltaDatas texts : list string) :
  frameKind JSON_parse startData = StreamStart ->
  Forall2 (fun p t => frameKind JSON_parse p = StreamDelta t) deltaDatas texts ->
  frameKind JSON_parse endData = StreamEnd ->
  String.concat EmptyString texts <> EmptyString ->
  let st' := receiveAll JSON_parse (startData :: deltaDatas ++ [endData]) st in
  messages st'
  = messages st
      ++ [mkMessage assistant (String.concat EmptyString texts)
            (Some (selectedModel st))]
  /\ currentResponse st' = EmptyString
  /\ isStreaming st' = false.
Proof.
  intros Kstart Kdeltas Kend Hne st'. subst st'.
  unfold receiveAll. cbn [fold_left]. rewrite fold_left_app. cbn [fold_left].
  rewrite (receive_stream_start _ _ Kstart).
  fold (receiveAll JSON_parse deltaDatas
          (setCurrentResponse (fun _ => EmptyString) (setIsStreaming true st))).
  rewrite (receiveAll_deltas _ _ _ Kdeltas) by reflexivity.
  rewrite receive_settled by (left; reflexivity).
  rewrite onmessage_frameKind, Kend.
  rewrite streamingEndEffect_finalizes; [|reflexivity|exact Hne].
  simpl. auto.
Qed.

(** C10: a stream that ends with an empty buffer, its [stream_start]
    followed by deltas whose contents concatenate to the empty string (or
    by none) and by [stream_end], appends nothing to the history.  The
    effect for the end of streaming changes no state whose buffer is
    empty. *)
Theorem empty_stream_not_finalized (st : State) (startData endData : string)
    (deltaDatas texts : list string) :
  frameKind JSON_parse startData = StreamStart ->
  Forall2 (fun p t => frameKind JSON_parse p = StreamDelta t) deltaDatas texts ->
  frameKind JSON_parse endData = StreamEnd ->
  String.concat EmptyString texts = EmptyString ->
  let st' := receiveAll JSON_parse (startData :: deltaDatas ++ [endData]) st in
  messages st' = messages st
  /\ currentResponse st' = EmptyString
  /\ isStreaming st' = false
  /\ (forall st0, currentResponse st0 = EmptyString -> streamingEndEffect st0 = st0).
Proof.
  intros Kstart Kdeltas Kend Hempty st'. subst st'.
  unfold receiveAll. cbn [fold_left]. rewrite fold_left_app. cbn [fold_left].
  rewrite (receive_stream_start _ _ Kstart).
  fold (receiveAll JSON_parse deltaDatas
          (setCurrentResponse (fun _ => EmptyString) (setIsStreaming true st))).
  rewrite (receiveAll_deltas _ _ _ Kdeltas) by reflexivity.
  rewrite receive_settled by (left; reflexivity).
  rewrite onmessage_frameKind, Kend.
  rewrite streamingEndEffect_settled by (right; simpl; now rewrite Hempty).
  simpl. rewrite Hempty. repeat split.
  intros st0 H0. apply streamingEndEffect_settled. now right.
Qed.

(** C9: a payload that [JSON.parse] rejects changes nothing, whatever the
    state: the handler returns the state it was given and no effect runs
    in the render that follows. *)
Theorem unparseable_frame_ignored (st : State) (eventData : string) (e : JsError) :
  JSON_parse eventData = Throw e ->
  onmessage JSON_parse eventData st = st
  /\ receive JSON_parse st eventData = st.
Proof.
  intros H.
  assert (E : onmessage JSON_parse eventData st = st).
  { unfold onmessage, onmessageTry, mbind, Completion_bind. now rewrite H. }
  split; [exact E|]. unfold receive. rewrite E. apply runEffects_unchanged.
Qed.

(** ** The buffer and the window of the stream *)

Lemma sinceLastStart_snoc (frames : list FrameKind) (frame : FrameKind) :
  sinceLastStart (frames ++ [frame])
  = match frame with
    | StreamStart => Some []
    | _ => option_map (fun window => window ++ [frame]) (sinceLastStart frames)
    end.
Proof.
  induction frames as [|f frames IH].
  - destruct frame; reflexivity.
  - change ((f :: frames) ++ [frame]) with (f :: (frames ++ [frame])).
    cbn [sinceLastStart]. rewrite IH.
    destruct frame; try reflexivity;
      destruct (sinceLastStart frames); try reflexivity;
      destruct f; reflexivity.
Qed.

(** How one more frame moves the window that the specification
    describes. *)
Lemma window_snoc (frames : list FrameKind) (frame : FrameKind) :
  windowOpen (frames ++ [frame])
  = match frame with
    | StreamStart => true
    | StreamEnd | ErrorFrame _ => false
    | _ => windowOpen frames
    end
  /\ windowBuffer (frames ++ [frame])
     = match frame with
       | StreamStart | StreamEnd | ErrorFrame _ => EmptyString
       | StreamDelta text =>
           if windowOpen frames then windowBuffer frames +:+ text else EmptyString
       | _ => windowBuffer frames
       end.
Proof.
  unfold windowOpen, windowBuffer. rewrite sinceLastStart_snoc.
  destruct frame; try (split; reflexivity);
    destruct (sinceLastStart frames) as [window|]; try (split; reflexivity);
    cbn [option_map]; rewrite existsb_app; cbn [existsb closesWindow];
    rewrite ?orb_false_r, ?orb_true_r;
    try (split; reflexivity);
    destruct (existsb closesWindow window); try (split; reflexivity);
    rewrite map_app; cbn [negb map deltaText]; rewrite concat_snoc;
    rewrite ?string_app_empty_r; split; reflexivity.
Qed.

Lemma windowBuffer_closed (frames : list FrameKind) :
  windowOpen frames = false -> windowBuffer frames = EmptyString.
Proof.
  unfold windowOpen, windowBuffer.
  destruct (sinceLastStart frames); [|reflexivity].
  destruct (existsb closesWindow l); [reflexivity | discriminate].
Qed.

(** How one more message event moves the streaming flag and the buffer,
    from a state in which a stream is in flight or the buffer is empty. *)
Lemma receive_window (st : State) (eventData : string) :
  isStreaming st = true \/ currentResponse st = EmptyString ->
  let st' := receive JSON_parse st eventData in
  isStreaming st'
  = match frameKind JSON_parse eventData with
    | StreamStart => true
    | StreamEnd | ErrorFrame _ => false
    | _ => isStreaming st
    end
  /\ currentResponse st'
     = match frameKind JSON_parse eventData with
       | StreamStart | StreamEnd | ErrorFrame _ => EmptyString
       | StreamDelta text =>
           if isStreaming st then currentResponse st +:+ text else EmptyString
       | _ => currentResponse st
       end.
Proof.
  intros H st'. subst st'.
  rewrite receive_settled by exact H.
  rewrite onmessage_frameKind.
  destruct st as [ms sel msgs inp conn str buf init hist modal socks ref].
  cbn [isStreaming currentResponse] in *.
  destruct (frameKind JSON_parse eventData) as [|text| |text|h| |];
    unfold streamingEndEffect; cbn;
    destruct str; cbn;
    try (split; reflexivity);
    try (destruct buf; cbn; split; reflexivity);
    (destruct H as [H|H]; [discriminate H|]; subst buf; cbn;
     try (split; reflexivity); destruct text; split; reflexivity).
Qed.

(** C2, as the code has it: the handler appends the content of every
    [stream] frame to the buffer, whether a stream is in flight or not.
    When each message event is followed by its render, in which the
    effect for the end of streaming runs, then after any sequence of
    message events, delivered from a state with no stream in flight and
    an empty buffer, the buffer holds the concatenation, in arrival
    order, of the contents of the [stream] frames received since the most
    recent [stream_start], as long as no [stream_end] or [error] has
    followed it, and is empty outside such a window.  The streaming flag
    tells whether the window is open. *)
Theorem buffer_is_window (st : State) (eventDatas : list string) :
  isStreaming st = false ->
  currentResponse st = EmptyString ->
  let st' := receiveAll JSON_parse eventDatas st in
  let frames := map (frameKind JSON_parse) eventDatas in
  currentResponse st' = windowBuffer frames
  /\ isStreaming st' = windowOpen frames
  /\ (forall st0 eventData text,
        frameKind JSON_parse eventData = StreamDelta text ->
        currentResponse (onmessage JSON_parse eventData st0)
        = currentResponse st0 +:+ text
        /\ isStreaming (onmessage JSON_parse eventData st0) = isStreaming st0).
Proof.
  intros S B. cbv zeta.
  assert (Hhandler : forall st0 eventData text,
             frameKind JSON_parse eventData = StreamDelta text ->
             currentResponse (onmessage JSON_parse eventData st0)
             = currentResponse st0 +:+ text
             /\ isStreaming (onmessage JSON_parse eventData st0) = isStreaming st0).
  { intros st0 eventData text K. rewrite onmessage_frameKind, K. now split. }
  cut (currentResponse (receiveAll JSON_parse eventDatas st)
       = windowBuffer (map (frameKind JSON_parse) eventDatas)
       /\ isStreaming (receiveAll JSON_parse eventDatas st)
          = windowOpen (map (frameKind JSON_parse) eventDatas)).
  { intros [H1 H2]. split; [exact H1|]. split; [exact H2 | exact Hhandler]. }
  clear Hhandler.
  induction eventDatas as [|p ps IH] using rev_ind.
  - split; assumption.
  - destruct IH as [IHb IHs].
    unfold receiveAll in *. rewrite fold_left_app, map_app. cbn [fold_left map].
    set (st1 := fold_left (receive JSON_parse) ps st) in *.
    set (frames := map (frameKind JSON_parse) ps) in *.
    assert (Hsettled : isStreaming st1 = true \/ currentResponse st1 = EmptyString).
    { destruct (isStreaming st1) eqn:E; [now left|right].
      rewrite IHb. apply windowBuffer_closed. now rewrite <- IHs. }
    destruct (receive_window st1 p Hsettled) as [Rs Rb].
    destruct (window_snoc frames (frameKind JSON_parse p)) as [Ws Wb].
    rewrite Rs, Rb, Ws, Wb, IHs, IHb. split; reflexivity.
Qed.

End Properties.

(** ** Submitting a message *)

Lemma trimStart_whitespace (s : string) :
  allChars isWhiteSpace s = true -> trimStart s = EmptyString.
Proof.
  induction s as [|c r IH]; simpl; [reflexivity|].
  intros H. apply andb_prop in H as [Hc Hr]. now rewrite Hc, IH.
Qed.

(** [trim] gives a non-empty string exactly when some character is not
    white space. *)
Lemma truthy_trim (s : string) :
  truthy (trim s) = negb (allChars isWhiteSpace s).
Proof.
  unfold trim. induction s as [|c r IH]; [reflexivity|].
  cbn [trimStart allChars]. destruct (isWhiteSpace c) eqn:E; [exact IH|].
  cbn [trimEnd]. rewrite E. now destruct (trimEnd r).
Qed.

Section Session.

Variable JSON_parse : string -> Completion JsValue.

(** C8: when the input is empty or white space only, or the connection
    state is disconnected, or a stream is in flight, submitting the form
    returns the state it was given and raises nothing: the history is
    unchanged, no socket has a new frame in its [sent] list, and no
    message is appended. *)
Theorem submit_rejected (st : State) :
  allChars isWhiteSpace (inputMessage st) = true
  \/ isConnected st = false
  \/ isStreaming st = true ->
  handleSendMessage st = (st, None)
  /\ step JSON_parse st FormSubmitted = Some st.
Proof.
  intros H.
  assert (E : handleSendMessage st = (st, None)).
  { unfold handleSendMessage. rewrite truthy_trim, negb_involutive.
    destruct H as [H|[H|H]]; rewrite H; simpl;
      rewrite ?orb_true_r; reflexivity. }
  split; [exact E|].
  unfold step, handle. rewrite E. simpl. now rewrite runEffects_unchanged.
Qed.

(** ** Fetching the models *)

Lemma runEffects_no_dependency (prev st : State) :
  selectedModel st = selectedModel prev ->
  isStreaming st = isStreaming prev ->
  currentResponse st = currentResponse prev ->
  runEffects prev st = st.
Proof.
  intros Hm Hs Hb. unfold runEffects, modelChanged, streamDepsChanged.
  now rewrite Hm, Hs, Hb, Bool.eqb_reflx, !String.eqb_refl.
Qed.

Lemma models_streamingEndEffect (st : State) :
  models (streamingEndEffect st) = models st
  /\ selectedModel (streamingEndEffect st) = selectedModel st
  /\ initialConnectionMade (streamingEndEffect st) = initialConnectionMade st
  /\ sockets (streamingEndEffect st) = sockets st
  /\ socketRef (streamingEndEffect st) = socketRef st.
Proof.
  unfold streamingEndEffect.
  destruct (negb (isStreaming st) && truthy (currentResponse st)); now simpl.
Qed.

Lemma closeIfOpen_sockets (i : nat) (st : State) :
  exists socks, length socks = length (sockets st)
                /\ closeIfOpen i st = withSockets socks st.
Proof.
  unfold closeIfOpen.
  destruct (sockets st !! i) as [s|];
    [destruct (isOpen s)|];
    try (exists (sockets st); split; [reflexivity | now destruct st]).
  eexists. split; [|reflexivity]. apply length_insert.
Qed.

Lemma connectCleanup_sockets (prev st : State) :
  exists socks, length socks = length (sockets st)
                /\ connectCleanup prev st = withSockets socks st.
Proof.
  unfold connectCleanup.
  destruct (truthy (selectedModel prev)); [destruct (socketRef prev) as [i|]|];
    try (exists (sockets st); split; [reflexivity | now destruct st]).
  apply closeIfOpen_sockets.
Qed.

(** The connection effect appends one connecting socket, whose handlers
    capture the selected model and the greeting flag of the render, and
    makes [socketRef] point to it. *)
Lemma connectEffect_socket (st : State) :
  selectedModel st <> EmptyString ->
  exists socks,
    length socks = length (sockets st)
    /\ connectEffect st
       = withSocketRef (Some (length socks))
           (withSockets
              (socks ++ [mkWebSocket ("ws://localhost:8000/ws/" +:+ selectedModel st)
                           CONNECTING [] (selectedModel st)
                           (initialConnectionMade st)])
              st).
Proof.
  intros Hm. unfold connectEffect.
  destruct (selectedModel st) as [|c r] eqn:Em; [congruence|]. cbn [truthy].
  destruct (socketRef st) as [i|] eqn:Er.
  - destruct (closeIfOpen_sockets i st) as (socks & L & E). rewrite E.
    exists socks. split; [exact L|].
    destruct st; cbn in *. subst. reflexivity.
  - exists (sockets st). split; [reflexivity|].
    destruct st; cbn in *. subst. reflexivity.
Qed.

(** C7: when the request for the models settles with the identifiers
    [ms ++ [m]], the stored list is their reverse and [m], the last one
    listed, becomes the selected model.  When the request fails (the
    network fails, or the body is not JSON, or it has no [models] array),
    the list of models and the selection stay as they were, exactly one
    message is appended, a system message that reports the failure, and
    the handler completes. *)
Theorem fetchModels_outcomes (st : State) :
  (forall ms m,
      exists st', step JSON_parse st (ModelsFetched (Body (Some (ms ++ [m])))) = Some st'
                  /\ models st' = rev (ms ++ [m])
                  /\ hd_error (models st') = Some m
                  /\ selectedModel st' = m)
  /\ (forall r, r = NetworkFailure \/ r = ParseFailure \/ r = Body None ->
        exists st', step JSON_parse st (ModelsFetched r) = Some st'
                    /\ models st' = models st
                    /\ selectedModel st' = selectedModel st
                    /\ messages st' = messages st ++ [connectionErrorMessage]
                    /\ type connectionErrorMessage = system).
Proof.
  split.
  - intros ms m. eexists. split; [reflexivity|].
    unfold handle, fetchModels, fetchModelsTry.
    rewrite rev_app_distr. cbn [rev app].
    set (st' := setSelectedModel m (setModels (m :: rev ms) st)).
    unfold runEffects.
    destruct (modelChanged st st') eqn:Ec.
    + destruct (connectCleanup_sockets st st') as (socksA & LA & EA). rewrite EA.
      set (B := if streamDepsChanged st st'
                then streamingEndEffect (withSockets socksA st')
                else withSockets socksA st').
      assert (HB : models B = m :: rev ms /\ selectedModel B = m).
      { subst B. destruct (streamDepsChanged st st'); [|now split].
        destruct (models_streamingEndEffect (withSockets socksA st'))
          as (-> & -> & _). now split. }
      destruct HB as [HBm HBs].
      unfold connectEffect. destruct (truthy (selectedModel B)).
      * destruct (socketRef B) as [i|].
        -- destruct (closeIfOpen_sockets i B) as (socks & L & E). rewrite E.
           cbn. now rewrite HBm, HBs.
        -- cbn. now rewrite HBm, HBs.
      * now rewrite HBm, HBs.
    + destruct (streamDepsChanged st st'); [|now repeat split].
      destruct (models_streamingEndEffect st') as (-> & -> & _). now repeat split.
  - intros r Hr.
    exists (setMessages (fun prev => prev ++ [connectionErrorMessage]) st).
    split; [|now repeat split].
    unfold step, handle.
    assert (E : fetchModels r st
                = setMessages (fun prev => prev ++ [connectionErrorMessage]) st)
      by (destruct Hr as [-> | [-> | ->]]; reflexivity).
    rewrite E. f_equal. now apply runEffects_no_dependency.
Qed.

(** ** The buffer over a whole session *)

Lemma connectEffect_stream_fields (st : State) :
  isStreaming (connectEffect st) = isStreaming st
  /\ currentResponse (connectEffect st) = currentResponse st.
Proof.
  unfold connectEffect. destruct (truthy (selectedModel st)); [|now split].
  destruct (socketRef st) as [i|]; [|now split].
  destruct (closeIfOpen_sockets i st) as (socks & _ & ->). now split.
Qed.

(** The render after an event that leaves the streaming flag and the
    buffer alone leaves them alone too, when no finished stream is
    waiting in the buffer. *)
Lemma runEffects_stream_fields (prev st : State) :
  isStreaming prev = true \/ currentResponse prev = EmptyString ->
  isStreaming st = isStreaming prev ->
  currentResponse st = currentResponse prev ->
  isStreaming (runEffects prev st) = isStreaming prev
  /\ currentResponse (runEffects prev st) = currentResponse prev.
Proof.
  intros Hprev Hs Hb. unfold runEffects.
  set (A := if modelChanged prev st then connectCleanup prev st else st).
  assert (HA : isStreaming A = isStreaming prev
               /\ currentResponse A = currentResponse prev).
  { subst A. destruct (modelChanged prev st); [|now split].
    destruct (connectCleanup_sockets prev st) as (socks & _ & ->). now split. }
  destruct HA as [HAs HAb].
  set (B := if streamDepsChanged prev st then streamingEndEffect A else A).
  assert (HB : B = A).
  { subst B. destruct (streamDepsChanged prev st); [|reflexivity].
    apply streamingEndEffect_settled. now rewrite HAs, HAb. }
  rewrite HB.
  destruct (modelChanged prev st); [|now split].
  destruct (connectEffect_stream_fields A) as [-> ->]. now split.
Qed.

(** Only message events move the streaming flag and the buffer. *)
Lemma step_stream_fields (st st' : State) (ev : Event) :
  isStreaming st = true \/ currentResponse st = EmptyString ->
  step JSON_parse st ev = Some st' ->
  match ev with
  | SocketMessage _ eventData => st' = receive JSON_parse st eventData
  | _ => isStreaming st' = isStreaming st
         /\ currentResponse st' = currentResponse st
  end.
Proof.
  intros Hst. unfold step.
  destruct (handle JSON_parse ev st) as [h|] eqn:Eh; [|discriminate].
  intros E. injection E as <-.
  destruct ev as [r|value|value| |i|i eventData|i|i]; cbn in Eh.
  - injection Eh as <-. apply runEffects_stream_fields; [exact Hst| |];
      unfold fetchModels, fetchModelsTry;
      destruct r as [| |[dataModels|]]; try reflexivity;
      destruct (rev dataModels); reflexivity.
  - injection Eh as <-. now apply runEffects_stream_fields.
  - injection Eh as <-. now apply runEffects_stream_fields.
  - injection Eh as <-. apply runEffects_stream_fields; [exact Hst| |];
      unfold handleSendMessage, socketSend;
      destruct (negb (truthy (trim (inputMessage st)))
                || negb (isConnected st) || isStreaming st); try reflexivity;
      cbn; destruct (socketRef st) as [j|]; try reflexivity;
      destruct (sockets st !! j) as [s|]; try reflexivity;
      destruct (readyState s); reflexivity.
  - destruct (sockets st !! i) as [s|] eqn:Es; [|discriminate].
    destruct (readyState s); try discriminate. injection Eh as <-.
    apply runEffects_stream_fields; [exact Hst| |];
      unfold onopen, setReadyState; rewrite Es;
      destruct (closureInitialConnectionMade s); reflexivity.
  - destruct (sockets st !! i) as [s|]; [|discriminate].
    destruct (isOpen s); [|discriminate]. injection Eh as <-. reflexivity.
  - destruct (sockets st !! i) as [s|] eqn:Es; [|discriminate].
    destruct (readyState s); try discriminate; injection Eh as <-;
      (apply runEffects_stream_fields; [exact Hst| |];
       unfold onclose, setReadyState; rewrite Es; reflexivity).
  - destruct (sockets st !! i) as [s|] eqn:Es; [|discriminate].
    destruct (readyState s); try discriminate; injection Eh as <-;
      now apply runEffects_stream_fields.
Qed.

Lemma run_snoc (evs : list Event) (ev : Event) (st : State) :
  run JSON_parse (evs ++ [ev]) st
  = match run JSON_parse evs st with
    | Some st1 => step JSON_parse st1 ev
    | None => None
    end.
Proof.
  revert st. induction evs as [|e evs IH]; intros st; cbn.
  - now destruct (step JSON_parse st ev).
  - destruct (step JSON_parse st e); [apply IH | reflexivity].
Qed.

Lemma inboundFrames_snoc (evs : list Event) (ev : Event) :
  inboundFrames JSON_parse (evs ++ [ev])
  = inboundFrames JSON_parse evs
      ++ match ev with
         | SocketMessage _ eventData => [frameKind JSON_parse eventData]
         | _ => []
         end.
Proof.
  unfold inboundFrames. rewrite flat_map_app. cbn. now rewrite app_nil_r.
Qed.

(** The statement of C2 over a whole session: whatever events the browser
    delivers from the initial state (selections, submissions, opens,
    closes and messages of any socket), the buffer is that of the window
    of the frames received. *)
Theorem session_buffer_is_window (evs : list Event) (st : State) :
  run JSON_parse evs initialState = Some st ->
  currentResponse st = windowBuffer (inboundFrames JSON_parse evs)
  /\ isStreaming st = windowOpen (inboundFrames JSON_parse evs).
Proof.
  revert st. induction evs as [|ev evs IH] using rev_ind; intros st.
  - cbn. intros E. injection E as <-. split; reflexivity.
  - rewrite run_snoc.
    destruct (run JSON_parse evs initialState) as [st1|]; [|discriminate].
    destruct (IH st1 eq_refl) as [IHb IHs]. intros E.
    assert (Hsettled : isStreaming st1 = true \/ currentResponse st1 = EmptyString).
    { destruct (isStreaming st1) eqn:Es; [now left|right].
      rewrite IHb. apply windowBuffer_closed. now rewrite <- IHs. }
    pose proof (step_stream_fields st1 st ev Hsettled E) as H.
    rewrite inboundFrames_snoc.
    destruct ev as [r|value|value| |i|i eventData|i|i];
      try (rewrite app_nil_r; destruct H as [-> ->]; now split).
    subst st.
    destruct (receive_window JSON_parse st1 eventData Hsettled) as [Rs Rb].
    destruct (window_snoc (inboundFrames JSON_parse evs)
                (frameKind JSON_parse eventData)) as [Ws Wb].
    rewrite Rs, Rb, Ws, Wb, IHs, IHb. split; reflexivity.
Qed.

(** Outside a stream the handler still appends a delta to the buffer, and
    the effect for the end of streaming moves it to the history at once:
    the buffer is empty again after the render. *)
Lemma delta_outside_stream (st : State) (eventData text : string) :
  isStreaming st = false ->
  currentResponse st = EmptyString ->
  text <> EmptyString ->
  frameKind JSON_parse eventData = StreamDelta text ->
  let st' := receive JSON_parse st eventData in
  messages st'
  = messages st ++ [mkMessage assistant text (Some (selectedModel st))]
  /\ currentResponse st' = EmptyString
  /\ isStreaming st' = false.
Proof.
  intros S B T K st'. subst st'.
  rewrite receive_settled by auto.
  rewrite onmessage_frameKind, K.
  rewrite streamingEndEffect_finalizes; cbn; rewrite ?B; auto.
Qed.

(** An [error] frame outside a stream appends its system message and
    nothing else. *)
Lemma error_frame_idle (st : State) (eventData text : string) :
  isStreaming st = false ->
  currentResponse st = EmptyString ->
  frameKind JSON_parse eventData = ErrorFrame text ->
  receive JSON_parse st eventData
  = setMessages
      (fun prev => prev ++ [mkMessage system ("Error: " +:+ text) None]) st.
Proof.
  intros S B K.
  rewrite receive_settled by auto.
  rewrite onmessage_frameKind, K.
  rewrite streamingEndEffect_settled by (right; exact B).
  destruct st; cbn in *; subst. reflexivity.
Qed.

(** ** The greeting *)


End Session.

(** * The theorems at concrete sessions *)

Example connected_session :
  selectedModel Examples.connected = "mistral:latest"
  /\ models Examples.connected = ["mistral:latest"; "gemma2:2b"]
  /\ isConnected Examples.connected = true
  /\ isStreaming Examples.connected = false
  /\ messages Examples.connected = [greeting "mistral:latest"].
Proof. repeat split. Qed.

(** C1 as the specification states it fails: an [error] frame that
    arrives in the middle of a stream is followed by the partial buffer
    in the history, as an assistant message. *)
Lemma error_frame_keeps_partial_buffer :
  let st := Examples.midStream in
  let st' := receive Json.parse st Examples.errorOverloaded in
  isConnected st = true
  /\ isStreaming st = true
  /\ currentResponse st = "Hel"
  /\ messages st' =
     messages st ++ [mkMessage system "Error: overloaded" None;
                     mkMessage assistant "Hel" (Some "mistral:latest")]
  /\ messages st' <> messages st ++ [mkMessage system "Error: overloaded" None].
Proof. vm_compute. repeat split. discriminate. Qed.

Lemma error_frame_mid_stream_witness :
  let st := Examples.midStream in
  let st' := receive Json.parse st Examples.errorOverloaded in
  (isStreaming st = true
   /\ currentResponse st <> EmptyString
   /\ frameKind Json.parse Examples.errorOverloaded = ErrorFrame "overloaded")
  /\ messages st'
     = messages st
         ++ [mkMessage system ("Error: " +:+ "overloaded") None;
             mkMessage assistant (currentResponse st) (Some (selectedModel st))]
  /\ isStreaming st' = false
  /\ currentResponse st' = EmptyString
  /\ isConnected st' = isConnected st.
Proof.
  split.
  - split; [reflexivity | split; [vm_compute; discriminate | reflexivity]].
  - apply (error_frame_mid_stream Json.parse Examples.midStream
             Examples.errorOverloaded "overloaded");
      [reflexivity | vm_compute; discriminate | reflexivity].
Defined.

Lemma buffer_is_window_witness :
  let eventDatas :=
    [Examples.streamLo; Examples.streamStart; Examples.streamHel;
     Examples.truncated; Examples.streamLo] in
  (isStreaming Examples.connected = false
   /\ currentResponse Examples.connected = EmptyString)
  /\ currentResponse (receiveAll Json.parse eventDatas Examples.connected)
     = windowBuffer (map (frameKind Json.parse) eventDatas)
  /\ isStreaming (receiveAll Json.parse eventDatas Examples.connected)
     = windowOpen (map (frameKind Json.parse) eventDatas)
  /\ (forall st0 eventData text,
        frameKind Json.parse eventData = StreamDelta text ->
        currentResponse (onmessage Json.parse eventData st0)
        = currentResponse st0 +:+ text
        /\ isStreaming (onmessage Json.parse eventData st0) = isStreaming st0).
Proof.
  split.
  - split; reflexivity.
  - apply (buffer_is_window Json.parse Examples.connected); reflexivity.
Defined.

(** C2 as the specification states it fails: a [stream] frame that
    arrives before any [stream_start], outside every window, is appended
    to the buffer by the handler, which tests no streaming flag; the
    render that follows moves it to the history as an assistant
    message. *)
Lemma stray_delta_reaches_buffer :
  let st := Examples.connected in
  let frames := map (frameKind Json.parse) [Examples.streamLo] in
  isStreaming st = false
  /\ currentResponse st = EmptyString
  /\ frames = [StreamDelta "lo"]
  /\ sinceLastStart frames = None
  /\ windowBuffer frames = EmptyString
  /\ currentResponse (onmessage Json.parse Examples.streamLo st) = "lo"
  /\ currentResponse (onmessage Json.parse Examples.streamLo st)
     <> windowBuffer frames
  /\ messages (receive Json.parse st Examples.streamLo)
     = messages st ++ [mkMessage assistant "lo" (Some "mistral:latest")].
Proof. vm_compute. repeat split. discriminate. Qed.

Example buffer_after_deltas :
  currentResponse
    (receiveAll Json.parse
       [Examples.streamLo; Examples.streamStart; Examples.streamHel;
        Examples.truncated; Examples.streamLo] Examples.connected) = "Hello"
  /\ currentResponse
       (receiveAll Json.parse
          [Examples.streamStart; Examples.streamHel; Examples.streamEnd;
           Examples.streamLo] Examples.connected) = EmptyString.
Proof. split; reflexivity. Qed.

Lemma stream_finalized_witness :
  let st := Examples.connected in
  let st' :=
    receiveAll Json.parse
      (Examples.streamStart :: [Examples.streamHel; Examples.streamLo]
         ++ [Examples.streamEnd]) st in
  (frameKind Json.parse Examples.streamStart = StreamStart
   /\ Forall2 (fun p t => frameKind Json.parse p = StreamDelta t)
        [Examples.streamHel; Examples.streamLo] ["Hel"; "lo"]
   /\ frameKind Json.parse Examples.streamEnd = StreamEnd
   /\ String.concat EmptyString ["Hel"; "lo"] <> EmptyString)
  /\ messages st'
     = messages st
         ++ [mkMessage assistant (String.concat EmptyString ["Hel"; "lo"])
               (Some (selectedModel st))]
  /\ currentResponse st' = EmptyString
  /\ isStreaming st' = false.
Proof.
  split.
  - split; [reflexivity|]. split; [repeat constructor|].
    split; [reflexivity | vm_compute; discriminate].
  - apply (stream_finalized Json.parse Examples.connected
             Examples.streamStart Examples.streamEnd
             [Examples.streamHel; Examples.streamLo] ["Hel"; "lo"]);
      [reflexivity | repeat constructor | reflexivity | vm_compute; discriminate].
Defined.

(** The example of the specification: one assistant message [Hello] of
    model [mistral:latest]. *)
Example stream_hello :
  messages
    (receiveAll Json.parse
       [Examples.streamStart; Examples.streamHel; Examples.streamLo;
        Examples.streamEnd] Examples.connected)
  = messages Examples.connected
      ++ [mkMessage assistant "Hello" (Some "mistral:latest")].
Proof. reflexivity. Qed.

Lemma empty_stream_not_finalized_witness :
  let st := Examples.connected in
  let st' :=
    receiveAll Json.parse
      (Examples.streamStart :: [Examples.streamNothing] ++ [Examples.streamEnd])
      st in
  (frameKind Json.parse Examples.streamStart = StreamStart
   /\ Forall2 (fun p t => frameKind Json.parse p = StreamDelta t)
        [Examples.streamNothing] [EmptyString]
   /\ frameKind Json.parse Examples.streamEnd = StreamEnd
   /\ String.concat EmptyString [EmptyString] = EmptyString)
  /\ messages st' = messages st
  /\ currentResponse st' = EmptyString
  /\ isStreaming st' = false
  /\ (forall st0, currentResponse st0 = EmptyString -> streamingEndEffect st0 = st0).
Proof.
  split.
  - split; [reflexivity|]. split; [repeat constructor|].
    split; reflexivity.
  - apply (empty_stream_not_finalized Json.parse Examples.connected
             Examples.streamStart Examples.streamEnd
             [Examples.streamNothing] [EmptyString]);
      [reflexivity | repeat constructor | reflexivity | reflexivity].
Defined.

Lemma unparseable_frame_ignored_witness :
  Json.parse Examples.truncated = Throw SyntaxError
  /\ onmessage Json.parse Examples.truncated Examples.midStream = Examples.midStream
  /\ receive Json.parse Examples.midStream Examples.truncated = Examples.midStream.
Proof.
  split; [reflexivity|].
  apply (unparseable_frame_ignored Json.parse Examples.midStream
           Examples.truncated SyntaxError).
  reflexivity.
Defined.

Lemma submit_rejected_witness :
  (allChars isWhiteSpace (inputMessage Examples.blankInput) = true
   \/ isConnected Examples.blankInput = false
   \/ isStreaming Examples.blankInput = true)
  /\ handleSendMessage Examples.blankInput = (Examples.blankInput, None)
  /\ step Json.parse Examples.blankInput FormSubmitted = Some Examples.blankInput.
Proof.
  split.
  - left. reflexivity.
  - apply (submit_rejected Json.parse Examples.blankInput). left. reflexivity.
Defined.

(** A submission that passes the guard, for comparison: the history and
    the socket each gain one entry. *)
Example submit_accepted :
  let st := setInputMessage "hi" Examples.connected in
  exists st', step Json.parse st FormSubmitted = Some st'
              /\ messages st' = messages st ++ [mkMessage user "hi" None]
              /\ (sent <$> sockets st' !! 0) = Some [messageFrame "hi"]
              /\ inputMessage st' = EmptyString.
Proof. eexists. repeat split. Qed.



(** The first model of a session is greeted. *)
Example first_model_greeted :
  run Json.parse [ModelSelected "custom-model:7b"; SocketOpened 0] initialState
  = Some (withSockets
            [mkWebSocket "ws://localhost:8000/ws/custom-model:7b" OPEN []
               "custom-model:7b" false]
            (withSocketRef (Some 0)
               (setInitialConnectionMade true
                  (setMessages
                     (fun _ =>
                        [mkMessage assistant
                           "Hello there! I am Custom Model. How can I assist you today?"
                           (Some "custom-model:7b")])
                     (setIsConnected true
                        (setSelectedModel "custom-model:7b" initialState)))))).
Proof. reflexivity. Qed.

Example fetchModels_failure :
  step Json.parse initialState (ModelsFetched NetworkFailure)
  = Some (setMessages (fun _ => [connectionErrorMessage]) initialState).
Proof. reflexivity. Qed.

(** * Further properties of the component *)

(** ** Display names and casing *)

Lemma split_toLowerCase (sep : ascii -> bool) (s : string) :
  (forall c, sep (lowerChar c) = sep c) ->
  split sep (toLowerCase s) = map toLowerCase (split sep s).
Proof.
  intros Hsep. induction s as [|c r IH]; [reflexivity|].
  cbn [toLowerCase split]. rewrite Hsep, IH.
  destruct (sep c); [reflexivity|].
  destruct (split sep r); reflexivity.
Qed.

Lemma upperChar_lowerChar (c : ascii) :
  isAlnum c = true -> upperChar (lowerChar c) = upperChar c.
Proof.
  destruct c as [[] [] [] [] [] [] [] []]; vm_compute; intros H;
    try reflexivity; discriminate H.
Qed.

Lemma isSeparator_lowerChar (c : ascii) : isSeparator (lowerChar c) = isSeparator c.
Proof. unfold isSeparator. now rewrite isAlnum_lowerChar. Qed.

Lemma capitalize_toLowerCase (w : string) :
  allChars isAlnum w = true -> capitalize (toLowerCase w) = capitalize w.
Proof.
  destruct w as [|c r]; [reflexivity|].
  cbn [toLowerCase allChars]. intros H. apply andb_prop in H as [Hc _].
  rewrite !capitalize_cons.
  now rewrite upperChar_lowerChar, toLowerCase_idempotent.
Qed.

Lemma getDisplayName_toLowerCase (s : string) :
  getDisplayName (toLowerCase s) = getDisplayName s.
Proof.
  unfold getDisplayName.
  rewrite (lookupKnown_casing (toLowerCase s) s) by apply toLowerCase_idempotent.
  destruct (lookupKnown s modelMap); [reflexivity|]. cbv zeta.
  rewrite split_toLowerCase by apply colon_lowerChar.
  destruct (split (Ascii.eqb ":") s) as [|p ps] eqn:E;
    [now apply split_not_nil in E|].
  cbn [map]. rewrite split_toLowerCase by apply isSeparator_lowerChar.
  rewrite map_map. f_equal.
  apply map_ext_Forall.
  eapply List.Forall_impl; [|apply split_isSeparator].
  intros w. apply capitalize_toLowerCase.
Qed.

(** For identifiers made of code units below 256 (ASCII and Latin-1),
    which are the strings of this development, the display name does not
    depend on the casing of the identifier, on either branch of
    [getDisplayName].  Beyond them the property fails: the Kelvin sign
    U+212A lower-cases to [k] and is a separator of the formatting
    branch. *)
Theorem getDisplayName_casing (s t : string) :
  toLowerCase s = toLowerCase t -> getDisplayName s = getDisplayName t.
Proof.
  intros E. rewrite <- (getDisplayName_toLowerCase s), E.
  apply getDisplayName_toLowerCase.
Qed.

Lemma getDisplayName_casing_witness :
  toLowerCase "Custom-MODEL:7B" = toLowerCase "custom-model:7b"
  /\ getDisplayName "Custom-MODEL:7B" = getDisplayName "custom-model:7b".
Proof.
  split; [reflexivity|].
  apply (getDisplayName_casing "Custom-MODEL:7B" "custom-model:7b"). reflexivity.
Defined.

(** For an identifier [name:tag] that matches no alias, the tag after the
    first colon has no part in the display name. *)
Theorem getDisplayName_tag (name tag : string) :
  allChars notColon name = true ->
  lookupKnown (name +:+ String ":" tag) modelMap = None ->
  getDisplayName (name +:+ String ":" tag) = getDisplayName name.
Proof.
  intros Hname Hnone.
  rewrite (getDisplayName_unmapped _ Hnone).
  rewrite (getDisplayName_unmapped name (lookupKnown_no_colon name Hname)).
  rewrite (split_app_separator (Ascii.eqb ":") name ":" tag Hname eq_refl).
  now rewrite (split_no_separator (Ascii.eqb ":") name Hname).
Qed.

Lemma getDisplayName_tag_witness :
  (allChars notColon "custom-model" = true
   /\ lookupKnown ("custom-model" +:+ String ":" "7b") modelMap = None)
  /\ getDisplayName ("custom-model" +:+ String ":" "7b")
     = getDisplayName "custom-model".
Proof.
  split; [split; reflexivity|].
  apply (getDisplayName_tag "custom-model" "7b"); reflexivity.
Defined.

(** ** The code component *)

Import Markdown.

Lemma takeWord_spec (s : string) :
  s = fst (takeWord s) +:+ snd (takeWord s)
  /\ allChars isWordChar (fst (takeWord s)) = true.
Proof.
  induction s as [|c r [IH1 IH2]]; [now split|].
  cbn [takeWord]. destruct (isWordChar c) eqn:E; [|now split].
  destruct (takeWord r) as [w rest]. cbn in *.
  rewrite E, IH2. split; [|reflexivity].
  rewrite string_app_cons. now rewrite <- IH1.
Qed.

Lemma takeWord_app (w rest : string) :
  allChars isWordChar w = true ->
  match rest with
  | EmptyString => true
  | String c _ => negb (isWordChar c)
  end = true ->
  takeWord (w +:+ rest) = (w, rest).
Proof.
  intros Hw Hrest. induction w as [|c w IH].
  - change (EmptyString +:+ rest) with rest.
    destruct rest as [|c r]; [reflexivity|].
    cbn [takeWord]. apply negb_true_iff in Hrest. now rewrite Hrest.
  - cbn [allChars] in Hw. apply andb_prop in Hw as [Hc Hw].
    rewrite string_app_cons. cbn [takeWord]. now rewrite Hc, (IH Hw).
Qed.

Lemma stripPrefix_spec (k s r : string) :
  Json.stripPrefix k s = Some r -> s = k +:+ r.
Proof.
  revert s. induction k as [|a k IH]; intros s; cbn.
  - intros H. now injection H as ->.
  - destruct s as [|b s]; [discriminate|].
    destruct (Ascii.eqb a b) eqn:E; [|discriminate].
    apply Ascii.eqb_eq in E. subst b. intros H.
    rewrite string_app_cons. f_equal. now apply IH.
Qed.

Lemma startsWith_app (k r : string) : startsWith (k +:+ r) k = true.
Proof.
  induction k as [|a k IH]; [now destruct r|].
  rewrite string_app_cons. cbn. now rewrite Ascii.eqb_refl.
Qed.

Lemma languageAt_sound (s language : string) :
  languageAt s = Some language ->
  language <> EmptyString
  /\ allChars isWordChar language = true
  /\ startsWith s ("language-" +:+ language) = true.
Proof.
  unfold languageAt.
  destruct (Json.stripPrefix "language-" s) as [r|] eqn:Ep; [|discriminate].
  destruct (takeWord_spec r) as [Hr Hw].
  destruct (takeWord r) as [[|c w] rest]; [discriminate|].
  intros H. injection H as <-. cbn [fst snd] in *.
  split; [discriminate|]. split; [exact Hw|].
  apply stripPrefix_spec in Ep. rewrite Ep, Hr.
  rewrite <- string_app_assoc. apply startsWith_app.
Qed.

(** A language is reported only when the class name holds [language-]
    followed by it; the reported language is a non-empty run of word
    characters. *)
Lemma languageMatch_sound (className language : string) :
  languageMatch className = Some language ->
  language <> EmptyString
  /\ allChars isWordChar language = true
  /\ includes className ("language-" +:+ language) = true.
Proof.
  induction className as [|c r IH]; cbn [languageMatch].
  - destruct (languageAt EmptyString) eqn:E; [|discriminate].
    intros H. injection H as ->.
    destruct (languageAt_sound _ _ E) as (H1 & H2 & H3).
    split; [exact H1|]. split; [exact H2|]. cbn [includes]. now rewrite H3.
  - destruct (languageAt (String c r)) eqn:E.
    + intros H. injection H as ->.
      destruct (languageAt_sound _ _ E) as (H1 & H2 & H3).
      split; [exact H1|]. split; [exact H2|]. cbn [includes]. now rewrite H3.
    + intros H. destruct (IH H) as (H1 & H2 & H3).
      split; [exact H1|]. split; [exact H2|].
      cbn [includes]. rewrite H3. apply orb_true_r.
Qed.

Lemma stripFinalNewline_cases (text : string) :
  text = stripFinalNewline text +:+ String newline EmptyString
  \/ (stripFinalNewline text = text
      /\ forall r, text <> r +:+ String newline EmptyString).
Proof.
  induction text as [|c r IH].
  - right. split; [reflexivity|]. intros [|a r]; discriminate.
  - destruct r as [|d r'].
    + cbn [stripFinalNewline]. destruct (Ascii.eqb c newline) eqn:E.
      * left. apply Ascii.eqb_eq in E. now subst c.
      * right. split; [reflexivity|].
        intros [|a [|b r]] H; try discriminate H.
        injection H as ->. now rewrite Ascii.eqb_refl in E.
    + change (stripFinalNewline (String c (String d r')))
        with (String c (stripFinalNewline (String d r'))).
      destruct IH as [IH|[IH1 IH2]].
      * left. rewrite string_app_cons. now rewrite <- IH.
      * right. rewrite IH1. split; [reflexivity|].
        intros [|a r] H; [discriminate H|].
        rewrite string_app_cons in H. injection H as -> H.
        now apply (IH2 r).
Qed.

(** The class name [language-w], alone or followed by other classes,
    selects the language [w]. *)
Theorem languageMatch_class (w rest : string) :
  w <> EmptyString ->
  allChars isWordChar w = true ->
  match rest with
  | EmptyString => true
  | String c _ => negb (isWordChar c)
  end = true ->
  languageMatch ("language-" +:+ w +:+ rest) = Some w
  /\ forall children,
       codeComponent false (Some ("language-" +:+ w +:+ rest)) children
       = Highlighted w (stripFinalNewline children).
Proof.
  intros Hne Hw Hrest.
  assert (E : languageMatch ("language-" +:+ w +:+ rest) = Some w).
  { assert (A : languageAt ("language-" +:+ w +:+ rest) = Some w).
    { unfold languageAt.
      change (Json.stripPrefix "language-" ("language-" +:+ w +:+ rest))
        with (Some (w +:+ rest)).
      cbv iota beta. rewrite (takeWord_app w rest Hw Hrest).
      destruct w; [congruence | reflexivity]. }
    change ("language-" +:+ w +:+ rest)
      with (String "l" ("anguage-" +:+ w +:+ rest)) in *.
    cbn [languageMatch]. now rewrite A. }
  split; [exact E|]. intros children.
  unfold codeComponent, default, id. cbv zeta. now rewrite E.
Qed.

Lemma languageMatch_class_witness :
  ("tsx" <> EmptyString
   /\ allChars isWordChar "tsx" = true
   /\ match " hljs" with
      | EmptyString => true
      | String c _ => negb (isWordChar c)
      end = true)
  /\ languageMatch ("language-" +:+ "tsx" +:+ " hljs") = Some "tsx"
  /\ forall children,
       codeComponent false (Some ("language-" +:+ "tsx" +:+ " hljs")) children
       = Highlighted "tsx" (stripFinalNewline children).
Proof.
  split.
  - split; [discriminate|]. split; reflexivity.
  - apply (languageMatch_class "tsx" " hljs"); [discriminate | reflexivity | reflexivity].
Defined.

(** The highlighter is used for block code only, with a language that
    the class name holds after [language-], and with the text of the
    block less one final line feed, if it has one; any other line feed
    stays. *)
Theorem codeComponent_highlighted (inline : bool) (className : option string)
    (children language text : string) :
  codeComponent inline className children = Highlighted language text ->
  inline = false
  /\ language <> EmptyString
  /\ allChars isWordChar language = true
  /\ includes (default EmptyString className) ("language-" +:+ language) = true
  /\ (children = text +:+ String newline EmptyString
      \/ (children = text
          /\ forall r, children <> r +:+ String newline EmptyString)).
Proof.
  unfold codeComponent. destruct inline; cbn [negb]; [discriminate|].
  destruct (languageMatch (default EmptyString className)) as [l|] eqn:E;
    [|discriminate].
  intros H. injection H as -> <-.
  destruct (languageMatch_sound _ _ E) as (H1 & H2 & H3).
  split; [reflexivity|]. split; [exact H1|]. split; [exact H2|].
  split; [exact H3|].
  destruct (stripFinalNewline_cases children) as [H|[H1' H2']].
  - now left.
  - right. rewrite H1'. now split.
Qed.

Lemma codeComponent_highlighted_witness :
  let children := "x = 1" +:+ String newline (String newline EmptyString) in
  let text := "x = 1" +:+ String newline EmptyString in
  codeComponent false (Some "language-python") children
  = Highlighted "python" text
  /\ false = false
  /\ "python" <> EmptyString
  /\ allChars isWordChar "python" = true
  /\ includes (default EmptyString (Some "language-python"))
       ("language-" +:+ "python") = true
  /\ (children = text +:+ String newline EmptyString
      \/ (children = text
          /\ forall r, children <> r +:+ String newline EmptyString)).
Proof.
  split; [reflexivity|].
  apply (codeComponent_highlighted false (Some "language-python")
           ("x = 1" +:+ String newline (String newline EmptyString))
           "python" ("x = 1" +:+ String newline EmptyString)).
  reflexivity.
Defined.

(** ** Frames at the edges of the protocol *)

Section Edges.

Variable JSON_parse : string -> Completion JsValue.

(** A payload that parses but whose [type] is none of the five handled
    strings changes nothing: an unknown or missing type, a type that is
    not a string, a number, a string or an array in place of the object,
    and [null], on which reading [type] throws inside the [try] block. *)
Theorem unhandled_payload_ignored (st : State) (eventData : string) (data : JsValue) :
  JSON_parse eventData = Normal data ->
  (forall t, getProp data "type" = Normal (JString t) ->
             ~ In t ["stream_start"; "stream"; "stream_end"; "error";
                     "chat_histories"]) ->
  onmessage JSON_parse eventData st = st
  /\ receive JSON_parse st eventData = st.
Proof.
  intros Hparse Htype.
  assert (K : frameKind JSON_parse eventData = Unhandled
              \/ frameKind JSON_parse eventData = Rejected).
  { unfold frameKind, frameOfData. rewrite Hparse.
    destruct (getProp data "type") as [[| | | |t| |]|]; auto.
    specialize (Htype t eq_refl). cbn [In] in Htype.
    repeat match goal with
           | |- context [String.eqb t ?k] =>
               destruct (String.eqb_spec t k); [exfalso; apply Htype; auto 10|]
           end.
    now left. }
  assert (E : onmessage JSON_parse eventData st = st)
    by (rewrite onmessage_frameKind; destruct K as [-> | ->]; reflexivity).
  split; [exact E|]. unfold receive. rewrite E. apply runEffects_unchanged.
Qed.

(** A [stream] frame without [content] appends the text [undefined] to
    the buffer of a stream in flight. *)
Theorem stream_without_content (st : State) (eventData : string)
    (fields : list (string * JsValue)) :
  JSON_parse eventData = Normal (JObject fields) ->
  lookupField "type" fields = Some (JString "stream") ->
  lookupField "content" fields = None ->
  isStreaming st = true ->
  receive JSON_parse st eventData
  = setCurrentResponse (fun prev => prev +:+ "undefined") st.
Proof.
  intros Hparse Htype Hcontent S.
  apply receive_stream_delta; [|exact S].
  unfold frameKind, frameOfData, getProp. now rewrite Hparse, Htype, Hcontent.
Qed.


End Edges.

Lemma unhandled_payload_ignored_witness :
  (Json.parse "null" = Normal JNull
   /\ (forall t, getProp JNull "type" = Normal (JString t) ->
                 ~ In t ["stream_start"; "stream"; "stream_end"; "error";
                         "chat_histories"]))
  /\ onmessage Json.parse "null" Examples.midStream = Examples.midStream
  /\ receive Json.parse Examples.midStream "null" = Examples.midStream.
Proof.
  split.
  - split; [reflexivity|]. intros t H. discriminate H.
  - apply (unhandled_payload_ignored Json.parse Examples.midStream "null" JNull);
      [reflexivity|]. intros t H. discriminate H.
Defined.

Lemma stream_without_content_witness :
  let eventData := Json.quoted "{'type':'stream'}" in
  let fields := [("type", JString "stream")] in
  (Json.parse eventData = Normal (JObject fields)
   /\ lookupField "type" fields = Some (JString "stream")
   /\ lookupField "content" fields = None
   /\ isStreaming Examples.midStream = true)
  /\ receive Json.parse Examples.midStream eventData
     = setCurrentResponse (fun prev => prev +:+ "undefined") Examples.midStream.
Proof.
  split.
  - repeat split.
  - apply (stream_without_content Json.parse Examples.midStream
             (Json.quoted "{'type':'stream'}") [("type", JString "stream")]);
      reflexivity.
Defined.


(** ** Renders, socket by socket *)

Lemma withSockets_id (st : State) :
  withSocketRef (socketRef st) (withSockets (sockets st) st) = st.
Proof. now destruct st. Qed.

Lemma closeIfOpen_frame (i : nat) (st : State) :
  closeIfOpen i st = withSockets (sockets (closeIfOpen i st)) st.
Proof.
  unfold closeIfOpen. destruct (sockets st !! i) as [s|]; [destruct (isOpen s)|];
    now destruct st.
Qed.

Lemma closeCurrent_frame (st : State) :
  closeCurrent st = withSockets (sockets (closeCurrent st)) st.
Proof.
  unfold closeCurrent. destruct (socketRef st); [apply closeIfOpen_frame|].
  now destruct st.
Qed.

(** The sockets after [closeCurrent], as a function of the socket store
    and of [socketRef.current]. *)
Lemma sockets_closeCurrent (st : State) :
  sockets (closeCurrent st)
  = match socketRef st with
    | Some i =>
        match sockets st !! i with
        | Some s =>
            if isOpen s then <[i := withReadyState CLOSING s]> (sockets st)
            else sockets st
        | None => sockets st
        end
    | None => sockets st
    end.
Proof.
  unfold closeCurrent, closeIfOpen. destruct (socketRef st) as [i|]; [|reflexivity].
  destruct (sockets st !! i) as [s|]; [|reflexivity].
  now destruct (isOpen s).
Qed.

Lemma sockets_closeCurrent_ext (st1 st2 : State) :
  sockets st1 = sockets st2 -> socketRef st1 = socketRef st2 ->
  sockets (closeCurrent st1) = sockets (closeCurrent st2).
Proof. intros Hs Hr. rewrite !sockets_closeCurrent. now rewrite Hs, Hr. Qed.

Lemma length_closeCurrent (st : State) :
  length (sockets (closeCurrent st)) = length (sockets st).
Proof.
  rewrite sockets_closeCurrent. destruct (socketRef st) as [i|]; [|reflexivity].
  destruct (sockets st !! i) as [s|]; [|reflexivity].
  destruct (isOpen s); [apply length_insert | reflexivity].
Qed.

(** Closing the current socket twice is closing it once. *)
Lemma closeCurrent_twice (st1 st : State) :
  sockets st1 = sockets (closeCurrent st) -> socketRef st1 = socketRef st ->
  sockets (closeCurrent st1) = sockets (closeCurrent st).
Proof.
  intros Hs Hr. rewrite (sockets_closeCurrent st1), Hs, Hr.
  rewrite (sockets_closeCurrent st).
  destruct (socketRef st) as [i|]; [|reflexivity].
  destruct (sockets st !! i) as [s|] eqn:Es; [|now rewrite Es].
  destruct (isOpen s) eqn:Eo; [|now rewrite Es, Eo].
  rewrite list_lookup_insert_eq by (eapply lookup_lt_Some; exact Es).
  reflexivity.
Qed.

Lemma streamingEndEffect_withSockets (socks : list WebSocket) (st : State) :
  streamingEndEffect (withSockets socks st)
  = withSockets socks (streamingEndEffect st).
Proof.
  unfold streamingEndEffect. cbn.
  now destruct (negb (isStreaming st) && truthy (currentResponse st)).
Qed.

(** The render after an event that selects another, non-empty model:
    the current socket is closed if it is open, the effect for the end
    of streaming runs, and one connecting socket is appended, to which
    [socketRef] points. *)
Lemma runEffects_model_changed (st h : State) :
  sockets h = sockets st -> socketRef h = socketRef st ->
  selectedModel h <> EmptyString ->
  selectedModel h <> selectedModel st ->
  runEffects st h
  = withSocketRef (Some (length (sockets st)))
      (withSockets
         (sockets (closeCurrent st)
            ++ [mkWebSocket ("ws://localhost:8000/ws/" +:+ selectedModel h)
                  CONNECTING [] (selectedModel h) (initialConnectionMade h)])
         (streamingEndEffect h)).
Proof.
  intros Hs Hr Hne Hch.
  assert (Ec : modelChanged st h = true).
  { unfold modelChanged. apply negb_true_iff, String.eqb_neq. congruence. }
  assert (Ed : streamDepsChanged st h = true).
  { unfold streamDepsChanged. fold (modelChanged st h). rewrite Ec.
    apply orb_true_r. }
  unfold runEffects. rewrite Ec, Ed.
  assert (EA : exists socksA,
             connectCleanup st h = withSockets socksA h
             /\ (socksA = sockets st \/ socksA = sockets (closeCurrent st))).
  { unfold connectCleanup. destruct (truthy (selectedModel st)).
    - exists (sockets (closeCurrent st)). split; [|now right].
      rewrite <- Hr. fold (closeCurrent h). rewrite closeCurrent_frame. f_equal.
      now apply sockets_closeCurrent_ext.
    - exists (sockets st). split; [|now left].
      rewrite <- Hs. now destruct h. }
  destruct EA as (socksA & -> & HA).
  rewrite streamingEndEffect_withSockets.
  destruct (models_streamingEndEffect h) as (_ & Ysel & Yinit & Ysocks & Yref).
  set (Y := streamingEndEffect h) in *.
  unfold connectEffect.
  cbn [selectedModel initialConnectionMade withSockets].
  rewrite Ysel, Yinit.
  destruct (selectedModel h) as [|c r] eqn:Em; [congruence|]. cbn [truthy].
  fold (closeCurrent (withSockets socksA Y)).
  assert (EZ : sockets (closeCurrent (withSockets socksA Y))
               = sockets (closeCurrent st)).
  { destruct HA as [-> | ->].
    - apply sockets_closeCurrent_ext; cbn; [reflexivity | congruence].
    - apply closeCurrent_twice; cbn; [reflexivity | congruence]. }
  rewrite (closeCurrent_frame (withSockets socksA Y)), EZ.
  cbn. now rewrite length_closeCurrent.
Qed.

(** The render after an event that keeps the selected model runs no
    socket code. *)
Lemma runEffects_model_kept (st h : State) :
  selectedModel h = selectedModel st ->
  sockets (runEffects st h) = sockets h
  /\ socketRef (runEffects st h) = socketRef h
  /\ selectedModel (runEffects st h) = selectedModel h.
Proof.
  intros Hm. unfold runEffects, modelChanged. rewrite Hm, String.eqb_refl.
  cbn [negb]. destruct (streamDepsChanged st h); [|now repeat split].
  destruct (models_streamingEndEffect h) as (_ & -> & _ & -> & ->).
  now repeat split.
Qed.

(** The render after an event that empties the selection only closes the
    current socket, if it is open. *)
Lemma runEffects_model_emptied (st h : State) :
  sockets h = sockets st -> socketRef h = socketRef st ->
  selectedModel h = EmptyString ->
  selectedModel st <> EmptyString ->
  sockets (runEffects st h) = sockets (closeCurrent st)
  /\ socketRef (runEffects st h) = socketRef st
  /\ selectedModel (runEffects st h) = EmptyString.
Proof.
  intros Hs Hr He Hne.
  assert (Ec : modelChanged st h = true).
  { unfold modelChanged. apply negb_true_iff, String.eqb_neq. congruence. }
  assert (Ed : streamDepsChanged st h = true).
  { unfold streamDepsChanged. fold (modelChanged st h). rewrite Ec.
    apply orb_true_r. }
  unfold runEffects. rewrite Ec, Ed. unfold connectCleanup.
  destruct (selectedModel st) as [|c r] eqn:Em; [congruence|]. cbn [truthy].
  rewrite <- Hr. fold (closeCurrent h).
  destruct (models_streamingEndEffect (closeCurrent h))
    as (_ & Ysel & _ & Ysocks & Yref).
  assert (Hc : selectedModel (closeCurrent h) = selectedModel h
               /\ socketRef (closeCurrent h) = socketRef h)
    by (rewrite closeCurrent_frame; now split).
  destruct Hc as [Hcsel Hcref].
  set (Z := streamingEndEffect (closeCurrent h)) in *.
  assert (EZ : connectEffect Z = Z).
  { unfold connectEffect. now rewrite Ysel, Hcsel, He. }
  rewrite EZ, Ysocks, Yref, Ysel, Hcsel, Hcref.
  split; [now apply sockets_closeCurrent_ext|]. now split.
Qed.

(** ** Switching models and submitting *)

Lemma fields_streamingEndEffect (st : State) :
  isConnected (streamingEndEffect st) = isConnected st
  /\ isStreaming (streamingEndEffect st) = isStreaming st
  /\ inputMessage (streamingEndEffect st) = inputMessage st.
Proof.
  unfold streamingEndEffect.
  destruct (negb (isStreaming st) && truthy (currentResponse st)); now simpl.
Qed.

Section Switching.

Variable JSON_parse : string -> Completion JsValue.

(** Selecting another model closes the current socket only if it is
    open: a socket that is still connecting stays as it is, with its
    handlers attached.  Exactly one socket is added, a connecting one for
    the new model, and [socketRef] points to it; no other socket
    changes. *)
Theorem model_switch_sockets (st : State) (m : string) :
  m <> EmptyString ->
  m <> selectedModel st ->
  exists st',
    step JSON_parse st (ModelSelected m) = Some st'
    /\ socketRef st' = Some (length (sockets st))
    /\ sockets st' !! length (sockets st)
       = Some (mkWebSocket ("ws://localhost:8000/ws/" +:+ m) CONNECTING [] m
                 (initialConnectionMade st))
    /\ length (sockets st') = S (length (sockets st))
    /\ (forall i s, socketRef st = Some i -> sockets st !! i = Some s ->
          sockets st' !! i
          = Some (if isOpen s then withReadyState CLOSING s else s))
    /\ (forall j, socketRef st <> Some j -> j < length (sockets st) ->
          sockets st' !! j = sockets st !! j).
Proof.
  intros Hm Hsel. eexists. split.
  { unfold step, handle, handleModelChange.
    rewrite (runEffects_model_changed st (setSelectedModel m st));
      [reflexivity | reflexivity | reflexivity | exact Hm | exact Hsel]. }
  cbn [socketRef sockets withSocketRef withSockets selectedModel
         initialConnectionMade setSelectedModel].
  split; [reflexivity|].
  split; [apply list_lookup_middle; now rewrite length_closeCurrent|].
  split; [rewrite length_app, length_closeCurrent; cbn; lia|].
  split.
  - intros i s Hr Hs.
    rewrite lookup_app_l
      by (rewrite length_closeCurrent; eapply lookup_lt_Some; exact Hs).
    rewrite sockets_closeCurrent, Hr, Hs.
    destruct (isOpen s); [|exact Hs].
    apply list_lookup_insert_eq. eapply lookup_lt_Some; exact Hs.
  - intros j Hr Hj.
    rewrite lookup_app_l by (now rewrite length_closeCurrent).
    rewrite sockets_closeCurrent.
    destruct (socketRef st) as [i|]; [|reflexivity].
    destruct (sockets st !! i) as [s|]; [|reflexivity].
    destruct (isOpen s); [|reflexivity].
    apply list_lookup_insert_ne. congruence.
Qed.

(** Right after another model is selected, while the connection state
    still says connected, a submission appends the user message to the
    history and then fails in [send] with an [InvalidStateError], the new
    socket being still connecting: no frame is sent and the input is not
    cleared.  [loadChatHistory], which tests the socket first, does
    nothing there. *)
Theorem submit_after_switch (st : State) (m historyId : string) :
  isConnected st = true ->
  isStreaming st = false ->
  allChars isWhiteSpace (inputMessage st) = false ->
  m <> EmptyString ->
  m <> selectedModel st ->
  exists st1,
    step JSON_parse st (ModelSelected m) = Some st1
    /\ handleSendMessage st1
       = (setMessages
            (fun prev => prev ++ [mkMessage user (inputMessage st) None]) st1,
          Some InvalidStateError)
    /\ loadChatHistory historyId st1 = st1.
Proof.
  intros Hc Hs Hi Hm Hsel. eexists. split.
  { unfold step, handle, handleModelChange.
    rewrite (runEffects_model_changed st (setSelectedModel m st));
      [reflexivity | reflexivity | reflexivity | exact Hm | exact Hsel]. }
  cbn [selectedModel initialConnectionMade setSelectedModel].
  set (Y := streamingEndEffect (setSelectedModel m st)).
  destruct (fields_streamingEndEffect (setSelectedModel m st)) as (Yc & Ys & Yi).
  fold Y in Yc, Ys, Yi. cbn in Yc, Ys, Yi.
  set (socket := mkWebSocket ("ws://localhost:8000/ws/" +:+ m) CONNECTING [] m
                   (initialConnectionMade st)).
  assert (Hlook : (sockets (closeCurrent st) ++ [socket]) !! length (sockets st)
                  = Some socket)
    by (apply list_lookup_middle; now rewrite length_closeCurrent).
  split.
  - unfold handleSendMessage, socketSend.
    cbn [inputMessage isConnected isStreaming socketRef sockets
           withSocketRef withSockets setMessages].
    rewrite Yc, Ys, Yi, truthy_trim, Hc, Hs, Hi. cbn [negb orb].
    now rewrite Hlook.
  - unfold loadChatHistory. cbn. now rewrite Hlook.
Qed.

(** A submission that passes the guard while [socketRef] holds an open
    socket appends one user message, sends one message frame on that
    socket and on no other, and clears the input.  The message and the
    frame carry the input as it was typed, white space included. *)
Theorem submission_sent (st : State) (i : nat) (s : WebSocket) :
  allChars isWhiteSpace (inputMessage st) = false ->
  isConnected st = true ->
  isStreaming st = false ->
  socketRef st = Some i ->
  sockets st !! i = Some s ->
  readyState s = OPEN ->
  exists st',
    step JSON_parse st FormSubmitted = Some st'
    /\ snd (handleSendMessage st) = None
    /\ messages st' = messages st ++ [mkMessage user (inputMessage st) None]
    /\ sockets st' !! i
       = Some (withSent (sent s ++ [messageFrame (inputMessage st)]) s)
    /\ (forall j, j <> i -> sockets st' !! j = sockets st !! j)
    /\ inputMessage st' = EmptyString
    /\ isStreaming st' = false
    /\ currentResponse st' = currentResponse st.
Proof.
  intros Hi Hc Hs Hr Hlook Hopen.
  assert (E : handleSendMessage st
              = (setInputMessage EmptyString
                   (withSockets
                      (<[i := withSent (sent s ++ [messageFrame (inputMessage st)]) s]>
                         (sockets st))
                      (setMessages
                         (fun prev => prev ++ [mkMessage user (inputMessage st) None])
                         st)),
                 None)).
  { unfold handleSendMessage, socketSend.
    rewrite truthy_trim, Hi, Hc, Hs. cbn [negb orb].
    cbn [socketRef sockets setMessages]. now rewrite Hr, Hlook, Hopen. }
  eexists. split.
  { unfold step, handle. rewrite E. cbn [fst].
    rewrite runEffects_no_dependency by reflexivity. reflexivity. }
  rewrite E. cbn.
  split; [reflexivity|]. split; [reflexivity|].
  split; [apply list_lookup_insert_eq; eapply lookup_lt_Some; exact Hlook|].
  split; [|now repeat split].
  intros j Hj. apply list_lookup_insert_ne. congruence.
Qed.

(** The handler rejects a submission in exactly the states in which the
    Send button is disabled: it returns the state it was given if and
    only if [sendDisabled] holds. *)
Theorem send_guard_is_button (st : State) :
  sendDisabled st = true <-> fst (handleSendMessage st) = st.
Proof.
  unfold sendDisabled, handleSendMessage.
  set (blank := negb (truthy (trim (inputMessage st)))).
  destruct blank, (isConnected st), (isStreaming st); cbn;
    try (split; [reflexivity | intros _; reflexivity]).
  split; [discriminate|]. intros H. exfalso.
  assert (L : length (messages (fst
                (match
                   socketSend (messageFrame (inputMessage st))
                     (setMessages
                        (fun prev => prev ++ [mkMessage user (inputMessage st) None])
                        st)
                 with
                 | Normal st2 => (setInputMessage EmptyString st2, None)
                 | Throw e =>
                     (setMessages
                        (fun prev => prev ++ [mkMessage user (inputMessage st) None])
                        st, Some e)
                 end)))
              = S (length (messages st))).
  { unfold socketSend. cbn.
    destruct (socketRef st) as [i|]; cbn; [|rewrite length_app; cbn; lia].
    destruct (sockets st !! i) as [s|]; cbn; [|rewrite length_app; cbn; lia].
    destruct (readyState s); cbn; rewrite length_app; cbn; lia. }
  rewrite H in L. lia.
Qed.

(** A close event of any socket that is not yet closed, also of one that
    the selection has left behind, sets the connection state to
    disconnected.  It creates no socket and changes no other one, so the
    current socket may well be open while the Send button is disabled and
    submissions are rejected. *)
Theorem close_disconnects (st : State) (i : nat) (s : WebSocket) :
  sockets st !! i = Some s ->
  readyState s <> CLOSED ->
  exists st',
    step JSON_parse st (SocketClosed i) = Some st'
    /\ isConnected st' = false
    /\ sendDisabled st' = true
    /\ handleSendMessage st' = (st', None)
    /\ socketRef st' = socketRef st
    /\ length (sockets st') = length (sockets st)
    /\ sockets st' !! i = Some (withReadyState CLOSED s)
    /\ (forall j, j <> i -> sockets st' !! j = sockets st !! j)
    /\ messages st' = messages st.
Proof.
  intros Hlook Hready.
  exists (onclose (setReadyState i CLOSED st)). split.
  { unfold step, handle. rewrite Hlook.
    destruct (readyState s); try congruence;
      (rewrite runEffects_no_dependency; [reflexivity| | |];
       unfold onclose, setReadyState; rewrite Hlook; reflexivity). }
  unfold onclose, setReadyState, sendDisabled, handleSendMessage.
  rewrite Hlook. cbn. rewrite orb_true_r.
  split; [reflexivity|]. split; [reflexivity|]. split; [reflexivity|].
  split; [reflexivity|]. split; [apply length_insert|].
  split; [apply list_lookup_insert_eq; eapply lookup_lt_Some; exact Hlook|].
  split; [|reflexivity].
  intros j Hj. apply list_lookup_insert_ne. congruence.
Qed.

End Switching.

(** ** Invariants of a session *)

Lemma idents_insert (l : list WebSocket) (i : nat) (s s' : WebSocket) :
  l !! i = Some s -> url s' = url s -> closureModel s' = closureModel s ->
  map (fun x => (url x, closureModel x)) (<[i := s']> l)
  = map (fun x => (url x, closureModel x)) l.
Proof.
  intros Hl Hu Hc. revert i Hl. induction l as [|a l IH]; intros i Hl.
  - discriminate Hl.
  - destruct i as [|i]; cbn in *.
    + injection Hl as ->. now rewrite Hu, Hc.
    + f_equal. now apply IH.
Qed.

Lemma idents_closeCurrent (st : State) :
  map (fun x => (url x, closureModel x)) (sockets (closeCurrent st))
  = map (fun x => (url x, closureModel x)) (sockets st).
Proof.
  rewrite sockets_closeCurrent. destruct (socketRef st) as [i|]; [|reflexivity].
  destruct (sockets st !! i) as [s|] eqn:Es; [|reflexivity].
  destruct (isOpen s); [|reflexivity].
  now apply (idents_insert _ i s).
Qed.

Lemma map_snoc_lookup {A B : Type} (f : A -> B) (l : list A) (pre : list B) (x : B) :
  map f l = pre ++ [x] ->
  length l = S (length pre)
  /\ exists a, l !! length pre = Some a /\ f a = x.
Proof.
  revert l. induction pre as [|b pre IH]; intros l H.
  - destruct l as [|a [|a' l]]; try discriminate H.
    injection H as H. split; [reflexivity|]. now exists a.
  - destruct l as [|a l]; [discriminate H|].
    injection H as _ H. destruct (IH l H) as (L & a' & Ha & Hf).
    split; [cbn; now rewrite L|]. now exists a'.
Qed.

Lemma connectEffect_frame (st : State) :
  exists socks ref, connectEffect st = withSocketRef ref (withSockets socks st).
Proof.
  destruct (selectedModel st) as [|c r] eqn:E.
  - exists (sockets st), (socketRef st). unfold connectEffect. rewrite E.
    cbn [truthy]. now rewrite withSockets_id.
  - destruct (connectEffect_socket st) as (socks & _ & H); [now rewrite E|].
    rewrite E in H. eauto.
Qed.

(** A render changes the socket store and [socketRef], and nothing else
    but what the effect for the end of streaming changes. *)
Lemma runEffects_frame (prev st : State) :
  exists socks ref,
    runEffects prev st = withSocketRef ref (withSockets socks st)
    \/ runEffects prev st
       = withSocketRef ref (withSockets socks (streamingEndEffect st)).
Proof.
  unfold runEffects.
  set (A := if modelChanged prev st then connectCleanup prev st else st).
  assert (HA : exists socksA, A = withSockets socksA st).
  { subst A. destruct (modelChanged prev st).
    - destruct (connectCleanup_sockets prev st) as (socks & _ & E). eauto.
    - exists (sockets st). now destruct st. }
  destruct HA as (socksA & ->).
  destruct (streamDepsChanged prev st).
  - rewrite streamingEndEffect_withSockets.
    destruct (modelChanged prev st).
    + destruct (connectEffect_frame (withSockets socksA (streamingEndEffect st)))
        as (socks & ref & ->).
      exists socks, ref. now right.
    + exists socksA, (socketRef st). right.
      destruct (models_streamingEndEffect st) as (_ & _ & _ & _ & <-).
      now destruct (streamingEndEffect st).
  - destruct (modelChanged prev st).
    + destruct (connectEffect_frame (withSockets socksA st)) as (socks & ref & ->).
      exists socks, ref. now left.
    + exists socksA, (socketRef st). left. now destruct st.
Qed.

Section Invariants.

Variable JSON_parse : string -> Completion JsValue.

Lemma run_invariant (P : State -> Prop) :
  (forall st ev st', P st -> step JSON_parse st ev = Some st' -> P st') ->
  forall evs st st', P st -> run JSON_parse evs st = Some st' -> P st'.
Proof.
  intros Hstep evs. induction evs as [|ev evs IH]; intros st st' HP; cbn.
  - intros H. now injection H as <-.
  - destruct (step JSON_parse st ev) as [st1|] eqn:E; [|discriminate].
    apply IH. now apply (Hstep st ev).
Qed.

(** What a handler does to the socket store: it keeps the sockets' URLs
    and captured models and [socketRef]; the handlers that can select a
    model keep the store as it is, the others keep the selection. *)
Lemma handle_sockets (st h : State) (ev : Event) :
  handle JSON_parse ev st = Some h ->
  map (fun x => (url x, closureModel x)) (sockets h)
  = map (fun x => (url x, closureModel x)) (sockets st)
  /\ socketRef h = socketRef st
  /\ match ev with
     | ModelsFetched _ | ModelSelected _ => sockets h = sockets st
     | _ => selectedModel h = selectedModel st
     end.
Proof.
  destruct ev as [r|value|value| |i|i eventData|i|i]; cbn [handle].
  - intros H. injection H as <-. unfold fetchModels, fetchModelsTry.
    destruct r as [| |[dataModels|]]; try (now repeat split).
    destruct (rev dataModels); now repeat split.
  - intros H. injection H as <-. now repeat split.
  - intros H. injection H as <-. now repeat split.
  - intros H. injection H as <-. unfold handleSendMessage, socketSend.
    destruct (negb (truthy (trim (inputMessage st)))
              || negb (isConnected st) || isStreaming st);
      [now repeat split|].
    cbn [socketRef sockets setMessages].
    destruct (socketRef st) as [j|] eqn:Er; [|cbn; now repeat split].
    destruct (sockets st !! j) as [s|] eqn:Es; [|cbn; now repeat split].
    destruct (readyState s); try (cbn; now repeat split).
    cbn. split; [|now split]. now apply (idents_insert _ j s).
  - destruct (sockets st !! i) as [s|] eqn:Es; [|discriminate].
    destruct (readyState s); try discriminate. intros H. injection H as <-.
    unfold onopen, setReadyState. rewrite Es.
    destruct (closureInitialConnectionMade s); cbn;
      (split; [now apply (idents_insert _ i s) | now split]).
  - destruct (sockets st !! i) as [s|]; [|discriminate].
    destruct (isOpen s); [|discriminate]. intros H. injection H as <-.
    rewrite onmessage_frameKind.
    destruct (frameKind JSON_parse eventData); now repeat split.
  - destruct (sockets st !! i) as [s|] eqn:Es; [|discriminate].
    destruct (readyState s); try discriminate; intros H; injection H as <-;
      unfold onclose, setReadyState; rewrite Es; cbn;
      (split; [now apply (idents_insert _ i s) | now split]).
  - destruct (sockets st !! i) as [s|]; [|discriminate].
    destruct (readyState s); try discriminate; intros H; injection H as <-;
      now repeat split.
Qed.

(** What one event does to the socket store: nothing that shows in the
    sockets' URLs and captured models, unless it selects another,
    non-empty model, for which one socket is appended. *)
Lemma step_sockets (st st' : State) (ev : Event) :
  step JSON_parse st ev = Some st' ->
  (map (fun x => (url x, closureModel x)) (sockets st')
   = map (fun x => (url x, closureModel x)) (sockets st)
   /\ socketRef st' = socketRef st
   /\ (selectedModel st' = selectedModel st \/ selectedModel st' = EmptyString))
  \/ (selectedModel st' <> EmptyString
      /\ map (fun x => (url x, closureModel x)) (sockets st')
         = map (fun x => (url x, closureModel x)) (sockets st)
             ++ [("ws://localhost:8000/ws/" +:+ selectedModel st', selectedModel st')]
      /\ socketRef st' = Some (length (sockets st))).
Proof.
  unfold step. destruct (handle JSON_parse ev st) as [h|] eqn:Eh; [|discriminate].
  intros H. injection H as <-.
  destruct (handle_sockets st h ev Eh) as (Hid & Href & Hev).
  destruct (String.eqb_spec (selectedModel h) (selectedModel st)) as [Hsame|Hdiff].
  - left. destruct (runEffects_model_kept st h Hsame) as (-> & -> & ->). auto.
  - assert (Hs : sockets h = sockets st)
      by (destruct ev; try exact Hev; congruence).
    destruct (String.eqb_spec (selectedModel h) EmptyString) as [Hempty|Hfull].
    + left.
      destruct (runEffects_model_emptied st h Hs Href Hempty) as (-> & -> & ->);
        [congruence|].
      rewrite idents_closeCurrent. auto.
    + right. rewrite (runEffects_model_changed st h Hs Href Hfull Hdiff).
      cbn [selectedModel sockets socketRef withSocketRef withSockets].
      destruct (models_streamingEndEffect h) as (_ & -> & _).
      split; [exact Hfull|]. split; [|reflexivity].
      rewrite map_app, idents_closeCurrent. reflexivity.
Qed.

(** In every state that a session reaches, [socketRef] holds the socket
    created last, and while a model is selected that socket is the one
    created for it: its URL ends in the selected model, and its handlers
    captured that model.  Submissions therefore go to the socket of the
    selected model. *)
Theorem current_socket_serves_selection (evs : list Event) (st : State) :
  run JSON_parse evs initialState = Some st ->
  selectedModel st <> EmptyString ->
  exists i s,
    socketRef st = Some i
    /\ S i = length (sockets st)
    /\ sockets st !! i = Some s
    /\ closureModel s = selectedModel st
    /\ url s = "ws://localhost:8000/ws/" +:+ selectedModel st.
Proof.
  intros Hrun.
  set (P := fun st : State =>
              socketRef st = match length (sockets st) with
                             | 0 => None
                             | S n => Some n
                             end
              /\ (selectedModel st <> EmptyString ->
                  exists pre,
                    map (fun x => (url x, closureModel x)) (sockets st)
                    = pre ++ [("ws://localhost:8000/ws/" +:+ selectedModel st,
                               selectedModel st)])).
  assert (HP : P st).
  { apply (run_invariant P) with (evs := evs) (st := initialState);
      [|split; [reflexivity | intros H; now contradiction H]|exact Hrun].
    clear. intros st ev st' [Href Hsel] Hstep.
    destruct (step_sockets st st' ev Hstep) as [(Hid & Hr & Hm)|(Hm & Hid & Hr)].
    - assert (L : length (sockets st') = length (sockets st)).
      { rewrite <- (length_map (fun x => (url x, closureModel x)) (sockets st')).
        rewrite Hid. apply length_map. }
      split; [now rewrite Hr, L|].
      intros Hne. rewrite Hid.
      destruct Hm as [Hm|Hm]; [|congruence]. rewrite Hm in *. auto.
    - assert (L : length (sockets st') = S (length (sockets st))).
      { rewrite <- (length_map (fun x => (url x, closureModel x)) (sockets st')).
        rewrite Hid, length_app, length_map. cbn. lia. }
      split; [now rewrite Hr, L|].
      intros _. eexists. exact Hid. }
  destruct HP as [Href Hsel]. intros Hne.
  destruct (Hsel Hne) as (pre & Hpre).
  destruct (map_snoc_lookup _ _ _ _ Hpre) as (L & s & Hs & Hx).
  injection Hx as Hu Hc.
  exists (length pre), s. rewrite Href, L. auto.
Qed.

Lemma messages_runEffects (prev st : State) :
  messages (runEffects prev st) = messages st
  \/ messages (runEffects prev st)
     = messages st ++ [mkMessage assistant (currentResponse st)
                         (Some (selectedModel st))].
Proof.
  destruct (runEffects_frame prev st) as (socks & ref & [-> | ->]);
    [now left|].
  cbn [messages withSocketRef withSockets]. unfold streamingEndEffect.
  destruct (negb (isStreaming st) && truthy (currentResponse st));
    [now right | now left].
Qed.

Lemma handle_messages (st h : State) (ev : Event) :
  handle JSON_parse ev st = Some h ->
  exists l, messages h = messages st ++ l
            /\ Forall (fun m => exists header, messageHeader m = Normal header) l.
Proof.
  assert (N : messages st = messages st ++ []) by now rewrite app_nil_r.
  destruct ev as [r|value|value| |i|i eventData|i|i]; cbn [handle].
  - intros H. injection H as <-. unfold fetchModels, fetchModelsTry.
    destruct r as [| |[dataModels|]];
      try (eexists; split; [reflexivity|]; repeat constructor; now eexists).
    destruct (rev dataModels); exists []; now split.
  - intros H. injection H as <-. exists []. now split.
  - intros H. injection H as <-. exists []. now split.
  - intros H. injection H as <-. unfold handleSendMessage, socketSend.
    destruct (negb (truthy (trim (inputMessage st)))
              || negb (isConnected st) || isStreaming st);
      [exists []; now split|].
    cbn [socketRef sockets setMessages].
    exists [mkMessage user (inputMessage st) None].
    split; [|repeat constructor; now eexists].
    destruct (socketRef st) as [j|]; [|reflexivity].
    destruct (sockets st !! j) as [s|]; [|reflexivity].
    destruct (readyState s); reflexivity.
  - destruct (sockets st !! i) as [s|] eqn:Es; [|discriminate].
    destruct (readyState s); try discriminate. intros H. injection H as <-.
    unfold onopen, setReadyState. rewrite Es.
    destruct (closureInitialConnectionMade s); cbn.
    + exists []. now split.
    + eexists. split; [reflexivity|]. repeat constructor. now eexists.
  - destruct (sockets st !! i) as [s|]; [|discriminate].
    destruct (isOpen s); [|discriminate]. intros H. injection H as <-.
    rewrite onmessage_frameKind.
    destruct (frameKind JSON_parse eventData);
      try (exists []; now split).
    eexists. split; [reflexivity|]. repeat constructor. now eexists.
  - destruct (sockets st !! i) as [s|] eqn:Es; [|discriminate].
    destruct (readyState s); try discriminate; intros H; injection H as <-;
      unfold onclose, setReadyState; rewrite Es; exists []; now split.
  - destruct (sockets st !! i) as [s|]; [|discriminate].
    destruct (readyState s); try discriminate; intros H; injection H as <-;
      exists []; now split.
Qed.

Lemma step_messages (st st' : State) (ev : Event) :
  step JSON_parse st ev = Some st' ->
  exists l, messages st' = messages st ++ l
            /\ Forall (fun m => exists header, messageHeader m = Normal header) l.
Proof.
  unfold step. destruct (handle JSON_parse ev st) as [h|] eqn:Eh; [|discriminate].
  intros H. injection H as <-.
  destruct (handle_messages st h ev Eh) as (l & Hl & Hok).
  destruct (messages_runEffects st h) as [-> | ->].
  - now exists l.
  - exists (l ++ [mkMessage assistant (currentResponse h) (Some (selectedModel h))]).
    rewrite Hl, <- List.app_assoc. split; [reflexivity|].
    apply Forall_app. split; [exact Hok|]. repeat constructor. now eexists.
Qed.

(** The history only grows: whatever events a session goes through, the
    messages it had stay where they were.  Every message it gains has a
    header that renders: an assistant message always carries the model
    that [getDisplayName] is applied to. *)
Theorem history_append_only (evs : list Event) (st st' : State) :
  run JSON_parse evs st = Some st' ->
  exists l, messages st' = messages st ++ l
            /\ Forall (fun m => exists header, messageHeader m = Normal header) l.
Proof.
  revert st. induction evs as [|ev evs IH]; intros st; cbn.
  - intros H. injection H as <-. exists []. split; [now rewrite app_nil_r|].
    constructor.
  - destruct (step JSON_parse st ev) as [st1|] eqn:E; [|discriminate].
    intros H. destruct (IH st1 H) as (l2 & H2 & Hok2).
    destruct (step_messages st st1 ev E) as (l1 & H1 & Hok1).
    exists (l1 ++ l2). rewrite H2, H1, <- List.app_assoc.
    split; [reflexivity|]. apply Forall_app. now split.
Qed.

(** A stream that is in flight stays in flight, with its buffer, through
    every event that is not a message of a socket: selecting a model,
    opening, closing or failing of a socket, typing, submitting.  As long
    as it does, the Send button is disabled and submissions change
    nothing. *)
Theorem stream_stays_in_flight (evs : list Event) (st st' : State) :
  isStreaming st = true ->
  forallb (fun ev => negb (isMessageEvent ev)) evs = true ->
  run JSON_parse evs st = Some st' ->
  isStreaming st' = true
  /\ currentResponse st' = currentResponse st
  /\ sendDisabled st' = true
  /\ step JSON_parse st' FormSubmitted = Some st'.
Proof.
  intros S Hevs Hrun.
  assert (H : isStreaming st' = true /\ currentResponse st' = currentResponse st).
  { revert st S Hrun. induction evs as [|ev evs IH]; intros st S; cbn.
    - intros H. injection H as <-. now split.
    - cbn in Hevs. apply andb_prop in Hevs as [Hev Hevs].
      destruct (step JSON_parse st ev) as [st1|] eqn:E; [|discriminate].
      pose proof (step_stream_fields JSON_parse st st1 ev (or_introl S) E) as F.
      destruct ev; try discriminate Hev; destruct F as [F1 F2];
        intros Hrun; (destruct (IH Hevs st1) as [R1 R2];
                      [congruence | exact Hrun | split; congruence]). }
  destruct H as [H1 H2]. split; [exact H1|]. split; [exact H2|].
  assert (E : handleSendMessage st' = (st', None)).
  { unfold handleSendMessage. rewrite H1. now rewrite !orb_true_r. }
  split.
  - unfold sendDisabled. rewrite H1. now rewrite orb_true_r.
  - unfold step, handle. rewrite E. cbn [fst]. now rewrite runEffects_unchanged.
Qed.

End Invariants.

(** ** The further properties at concrete sessions *)

Example switched_session :
  selectedModel Scenarios.switched = "gemma2:2b"
  /\ isConnected Scenarios.switched = true
  /\ socketRef Scenarios.switched = Some 1
  /\ (readyState <$> sockets Scenarios.switched) = [CLOSING; OPEN]
  /\ messages Scenarios.switched = [greeting "mistral:latest"].
Proof. repeat split. Qed.

Lemma model_switch_sockets_witness :
  let st := Examples.connected in
  let m := "gemma2:2b" in
  (m <> EmptyString /\ m <> selectedModel st)
  /\ exists st',
       step Json.parse st (ModelSelected m) = Some st'
       /\ socketRef st' = Some (length (sockets st))
       /\ sockets st' !! length (sockets st)
          = Some (mkWebSocket ("ws://localhost:8000/ws/" +:+ m) CONNECTING [] m
                    (initialConnectionMade st))
       /\ length (sockets st') = S (length (sockets st))
       /\ (forall i s, socketRef st = Some i -> sockets st !! i = Some s ->
             sockets st' !! i
             = Some (if isOpen s then withReadyState CLOSING s else s))
       /\ (forall j, socketRef st <> Some j -> j < length (sockets st) ->
             sockets st' !! j = sockets st !! j).
Proof.
  split.
  - split; vm_compute; discriminate.
  - apply (model_switch_sockets Json.parse Examples.connected "gemma2:2b");
      vm_compute; discriminate.
Defined.

Lemma submit_after_switch_witness :
  let st := Scenarios.typed in
  let m := "gemma2:2b" in
  (isConnected st = true
   /\ isStreaming st = false
   /\ allChars isWhiteSpace (inputMessage st) = false
   /\ m <> EmptyString
   /\ m <> selectedModel st)
  /\ exists st1,
       step Json.parse st (ModelSelected m) = Some st1
       /\ handleSendMessage st1
          = (setMessages
               (fun prev => prev ++ [mkMessage user (inputMessage st) None]) st1,
             Some InvalidStateError)
       /\ loadChatHistory "42" st1 = st1.
Proof.
  split.
  - split; [reflexivity|]. split; [reflexivity|]. split; [reflexivity|].
    split; vm_compute; discriminate.
  - apply (submit_after_switch Json.parse Scenarios.typed "gemma2:2b" "42");
      [reflexivity | reflexivity | reflexivity
      | vm_compute; discriminate | vm_compute; discriminate].
Defined.

Lemma submission_sent_witness :
  let st := Scenarios.typed in
  let s := mkWebSocket "ws://localhost:8000/ws/mistral:latest" OPEN []
             "mistral:latest" false in
  (allChars isWhiteSpace (inputMessage st) = false
   /\ isConnected st = true
   /\ isStreaming st = false
   /\ socketRef st = Some 0
   /\ sockets st !! 0 = Some s
   /\ readyState s = OPEN)
  /\ exists st',
       step Json.parse st FormSubmitted = Some st'
       /\ snd (handleSendMessage st) = None
       /\ messages st' = messages st ++ [mkMessage user (inputMessage st) None]
       /\ sockets st' !! 0
          = Some (withSent (sent s ++ [messageFrame (inputMessage st)]) s)
       /\ (forall j, j <> 0 -> sockets st' !! j = sockets st !! j)
       /\ inputMessage st' = EmptyString
       /\ isStreaming st' = false
       /\ currentResponse st' = currentResponse st.
Proof.
  split.
  - repeat split.
  - apply (submission_sent Json.parse Scenarios.typed 0
             (mkWebSocket "ws://localhost:8000/ws/mistral:latest" OPEN []
                "mistral:latest" false)); reflexivity.
Defined.

Lemma close_disconnects_witness :
  let st := Scenarios.switched in
  let s := mkWebSocket "ws://localhost:8000/ws/mistral:latest" CLOSING []
             "mistral:latest" false in
  (sockets st !! 0 = Some s /\ readyState s <> CLOSED)
  /\ exists st',
       step Json.parse st (SocketClosed 0) = Some st'
       /\ isConnected st' = false
       /\ sendDisabled st' = true
       /\ handleSendMessage st' = (st', None)
       /\ socketRef st' = socketRef st
       /\ length (sockets st') = length (sockets st)
       /\ sockets st' !! 0 = Some (withReadyState CLOSED s)
       /\ (forall j, j <> 0 -> sockets st' !! j = sockets st !! j)
       /\ messages st' = messages st.
Proof.
  split.
  - split; [reflexivity | discriminate].
  - apply (close_disconnects Json.parse Scenarios.switched 0
             (mkWebSocket "ws://localhost:8000/ws/mistral:latest" CLOSING []
                "mistral:latest" false)); [reflexivity | discriminate].
Defined.

Lemma current_socket_serves_selection_witness :
  let evs :=
    [ModelsFetched (Body (Some ["gemma2:2b"; "mistral:latest"]));
     SocketOpened 0; ModelSelected "gemma2:2b"; SocketOpened 1] in
  let st := Scenarios.switched in
  (run Json.parse evs initialState = Some st
   /\ selectedModel st <> EmptyString)
  /\ exists i s,
       socketRef st = Some i
       /\ S i = length (sockets st)
       /\ sockets st !! i = Some s
       /\ closureModel s = selectedModel st
       /\ url s = "ws://localhost:8000/ws/" +:+ selectedModel st.
Proof.
  split.
  - split; [vm_compute; reflexivity | vm_compute; discriminate].
  - apply (current_socket_serves_selection Json.parse
             [ModelsFetched (Body (Some ["gemma2:2b"; "mistral:latest"]));
              SocketOpened 0; ModelSelected "gemma2:2b"; SocketOpened 1]
             Scenarios.switched);
      [vm_compute; reflexivity | vm_compute; discriminate].
Defined.

Lemma history_append_only_witness :
  let evs :=
    [ModelsFetched (Body (Some ["gemma2:2b"; "mistral:latest"]));
     SocketOpened 0; InputChanged "hi"; FormSubmitted;
     SocketMessage 0 Examples.streamStart; SocketMessage 0 Examples.streamHel;
     SocketMessage 0 Examples.errorOverloaded] in
  let st := default initialState (run Json.parse evs initialState) in
  run Json.parse evs initialState = Some st
  /\ exists l,
       messages st = messages initialState ++ l
       /\ Forall (fun m => exists header, messageHeader m = Normal header) l.
Proof.
  split; [vm_compute; reflexivity|].
  apply (history_append_only Json.parse
           [ModelsFetched (Body (Some ["gemma2:2b"; "mistral:latest"]));
            SocketOpened 0; InputChanged "hi"; FormSubmitted;
            SocketMessage 0 Examples.streamStart; SocketMessage 0 Examples.streamHel;
            SocketMessage 0 Examples.errorOverloaded]
           initialState).
  vm_compute; reflexivity.
Defined.

(** The messages that the session of the witness gains, one of each
    type and more, and their headers. *)
Example history_gained :
  let evs :=
    [ModelsFetched (Body (Some ["gemma2:2b"; "mistral:latest"]));
     SocketOpened 0; InputChanged "hi"; FormSubmitted;
     SocketMessage 0 Examples.streamStart; SocketMessage 0 Examples.streamHel;
     SocketMessage 0 Examples.errorOverloaded] in
  let st := default initialState (run Json.parse evs initialState) in
  messages st
  = [greeting "mistral:latest";
     mkMessage user "hi" None;
     mkMessage system "Error: overloaded" None;
     mkMessage assistant "Hel" (Some "mistral:latest")]
  /\ map messageHeader (messages st)
     = [Normal "Mistral"; Normal "You"; Normal "System"; Normal "Mistral"].
Proof. vm_compute. split; reflexivity. Qed.

Lemma stream_stays_in_flight_witness :
  let evs :=
    [SocketClosed 0; ModelSelected "gemma2:2b"; SocketOpened 1;
     InputChanged "hi"; FormSubmitted] in
  let st := Examples.midStream in
  let st' := default st (run Json.parse evs st) in
  (isStreaming st = true
   /\ forallb (fun ev => negb (isMessageEvent ev)) evs = true
   /\ run Json.parse evs st = Some st')
  /\ isStreaming st' = true
  /\ currentResponse st' = currentResponse st
  /\ sendDisabled st' = true
  /\ step Json.parse st' FormSubmitted = Some st'.
Proof.
  split.
  - split; [vm_compute; reflexivity|].
    split; vm_compute; reflexivity.
  - apply (stream_stays_in_flight Json.parse
             [SocketClosed 0; ModelSelected "gemma2:2b"; SocketOpened 1;
              InputChanged "hi"; FormSubmitted]
             Examples.midStream); vm_compute; reflexivity.
Defined.

Lemma session_buffer_is_window_witness :
  let evs :=
    [ModelsFetched (Body (Some ["gemma2:2b"; "mistral:latest"]));
     SocketOpened 0; InputChanged "hi"; FormSubmitted;
     SocketMessage 0 Examples.streamStart; SocketMessage 0 Examples.streamHel;
     ModelSelected "gemma2:2b"; SocketOpened 1;
     SocketMessage 1 Examples.streamLo] in
  let st := default initialState (run Json.parse evs initialState) in
  run Json.parse evs initialState = Some st
  /\ currentResponse st = windowBuffer (inboundFrames Json.parse evs)
  /\ isStreaming st = windowOpen (inboundFrames Json.parse evs).
Proof.
  split; [vm_compute; reflexivity|].
  apply (session_buffer_is_window Json.parse
           [ModelsFetched (Body (Some ["gemma2:2b"; "mistral:latest"]));
            SocketOpened 0; InputChanged "hi"; FormSubmitted;
            SocketMessage 0 Examples.streamStart; SocketMessage 0 Examples.streamHel;
            ModelSelected "gemma2:2b"; SocketOpened 1;
            SocketMessage 1 Examples.streamLo]).
  vm_compute; reflexivity.
Defined.

Lemma delta_outside_stream_witness :
  let st := Examples.connected in
  let st' := receive Json.parse st Examples.streamLo in
  (isStreaming st = false
   /\ currentResponse st = EmptyString
   /\ "lo" <> EmptyString
   /\ frameKind Json.parse Examples.streamLo = StreamDelta "lo")
  /\ messages st'
     = messages st ++ [mkMessage assistant "lo" (Some (selectedModel st))]
  /\ currentResponse st' = EmptyString
  /\ isStreaming st' = false.
Proof.
  split.
  - split; [reflexivity|]. split; [reflexivity|].
    split; [discriminate | reflexivity].
  - apply (delta_outside_stream Json.parse Examples.connected
             Examples.streamLo "lo");
      [reflexivity | reflexivity | discriminate | reflexivity].
Defined.

Lemma error_frame_idle_witness :
  let st := Examples.connected in
  (isStreaming st = false
   /\ currentResponse st = EmptyString
   /\ frameKind Json.parse Examples.errorOverloaded = ErrorFrame "overloaded")
  /\ receive Json.parse st Examples.errorOverloaded
     = setMessages
         (fun prev => prev ++ [mkMessage system ("Error: " +:+ "overloaded") None])
         st.
Proof.
  split.
  - repeat split.
  - apply (error_frame_idle Json.parse Examples.connected
             Examples.errorOverloaded "overloaded"); reflexivity.
Defined.
